(** * InMemoryCache.py: the TTL + LRU cache and its two entry-level HTTP handlers

    The class [InMemoryCache] keeps an [OrderedDict] from string keys to item
    dictionaries ['value'], ['ttl'], ['expires_at'], ['created_at'].  The
    dictionary order is the recency order: first = least recently used.

    Conventions of the embedding.
    - Python [int]s are [Z]; [len] is [Z.of_nat (length _)].
    - [time.time()] is an input: every operation takes the clock readings it
      makes, in the order in which the code makes them.  A reading is a [Z]
      (seconds), a TTL is a [Z] (seconds).
    - The [OrderedDict] is an association list, first pair = oldest.
    - [self._lock] is re-entrant and held for the whole body of every method;
      a method is one atomic state transformer here.
    - A Python exception is a value of [res]; a method that can raise returns
      the store it leaves behind together with its [res]. *)

From Stdlib Require Import ZArith List String Bool Lia.
Import ListNotations.
Local Open Scope string_scope.
Local Open Scope list_scope.
Local Open Scope Z_scope.

Set Implicit Arguments.

(** ** Python values and exceptions *)

(** JSON payloads as Python sees them after [json.loads]. [PyFloat m e]
    stands for the float [m * 2^e]; the code never inspects a float. *)
#[warnings="-register-all"]
Inductive pyval : Type :=
| PyNone
| PyBool (b : bool)
| PyInt (z : Z)
| PyFloat (m e : Z)
| PyStr (s : string)
| PyList (l : list pyval)
| PyDict (d : list (string * pyval)).

Inductive exn : Type :=
| KeyError (msg : string)
| TypeError (msg : string)
| AttributeError (msg : string)
| BadRequest (msg : string).

(** [str(e)] *)
Definition str_exn (e : exn) : string :=
  match e with
  | KeyError m => ("'" ++ m ++ "'")%string
  | TypeError m | AttributeError m | BadRequest m => m
  end.

Inductive res (A : Type) : Type :=
| Ok (a : A)
| Raise (e : exn).
Arguments Ok {A} a.
Arguments Raise {A} e.

(** ** The ordered dictionary *)

Module OrderedDict.
Section Ops.
Variable V : Type.
Definition t := list (string * V).

Definition keys (d : t) : list string := map fst d.

(** [d[k]], [None] standing for the KeyError *)
Fixpoint getitem (k : string) (d : t) : option V :=
  match d with
  | [] => None
  | (k', v) :: d' => if String.eqb k k' then Some v else getitem k d'
  end.

(** [k in d] *)
Definition contains (k : string) (d : t) : bool :=
  match getitem k d with Some _ => true | None => false end.

(** [del d[k]] *)
Definition delitem (k : string) (d : t) : t :=
  filter (fun p => negb (String.eqb k (fst p))) d.

(** [d[k] = v]: an existing key keeps its position, a new key goes last *)
Fixpoint setitem (k : string) (v : V) (d : t) : t :=
  match d with
  | [] => [(k, v)]
  | (k', v') :: d' =>
      if String.eqb k k' then (k, v) :: d' else (k', v') :: setitem k v d'
  end.

(** [d.popitem(last=False)], [None] standing for the KeyError on an empty
    dictionary *)
Definition popitem_first (d : t) : option ((string * V) * t) :=
  match d with
  | [] => None
  | p :: d' => Some (p, d')
  end.

(** [d.move_to_end(k)], [None] standing for the KeyError *)
Definition move_to_end (k : string) (d : t) : option t :=
  match getitem k d with
  | Some v => Some (delitem k d ++ [(k, v)])
  | None => None
  end.
End Ops.
End OrderedDict.

Module OD := OrderedDict.

(** ** The cache *)

(** The item dictionary.  [put] writes ['ttl'] and ['expires_at'] under the
    same test [ttl > 0], so they are both [None] or both set: [expiry] holds
    the pair [(ttl, expires_at)] when they are set. *)
Record item : Type := Item {
  value : pyval;
  expiry : option (Z * Z);
  created_at : Z
}.

Definition ttl (it : item) : option Z := option_map fst (expiry it).
Definition expires_at (it : item) : option Z := option_map snd (expiry it).

Record InMemoryCache : Type := Cache {
  max_size : Z;
  default_ttl : Z;
  _cache : OD.t item
}.

(** [InMemoryCache(max_size, default_ttl)] *)
Definition init (ms dt : Z) : InMemoryCache :=
  {| max_size := ms; default_ttl := dt; _cache := [] |}.

Definition with_cache (c : InMemoryCache) (d : OD.t item) : InMemoryCache :=
  {| max_size := max_size c; default_ttl := default_ttl c; _cache := d |}.

(** [len(self._cache)] *)
Definition len (c : InMemoryCache) : Z := Z.of_nat (List.length (_cache c)).

(** [_is_expired(item)] at clock reading [now] *)
Definition _is_expired (it : item) (now : Z) : bool :=
  match ttl it with
  | None => false
  | Some _ =>
      match expires_at it with
      | Some e => e <? now
      | None => false
      end
  end.

(** the test of the first loop of [_evict_expired] *)
Definition sweep_hit (current_time : Z) (it : item) : bool :=
  match ttl it, expires_at it with
  | Some _, Some e => e <? current_time
  | _, _ => false
  end.

(** first loop of [_evict_expired]: the keys to remove, in dictionary order *)
Definition expired_keys (current_time : Z) (d : OD.t item) : list string :=
  map fst (filter (fun p => sweep_hit current_time (snd p)) d).

(** [_evict_expired()]: the second loop deletes the collected keys *)
Definition _evict_expired (c : InMemoryCache) (current_time : Z) : InMemoryCache :=
  with_cache c
    (fold_left (fun d k => OD.delitem k d) (expired_keys current_time (_cache c))
               (_cache c)).
Arguments _evict_expired : simpl never.

(** [_evict_lru()] *)
Definition _evict_lru (c : InMemoryCache) : InMemoryCache * res unit :=
  if max_size c <=? len c then
    match OD.popitem_first (_cache c) with
    | Some (_, d') => (with_cache c d', Ok tt)
    | None => (c, Raise (KeyError "dictionary is empty"))
    end
  else (c, Ok tt).

(** the TTL [put] works with: [if ttl is None: ttl = self.default_ttl] *)
Definition effective_ttl (c : InMemoryCache) (ttl0 : option Z) : Z :=
  match ttl0 with
  | None => default_ttl c
  | Some t => t
  end.

(** the item dictionary [put] builds: [expires_at = time.time() + ttl if
    ttl > 0 else None] and ['ttl': ttl if ttl > 0 else None] *)
Definition new_item (ttl1 : Z) (v : pyval) (t_exp t_created : Z) : item :=
  {| value := v;
     expiry := if 0 <? ttl1 then Some (ttl1, t_exp + ttl1) else None;
     created_at := t_created |}.

(** [time.time() + ttl] turns the int [ttl] into a double before adding.
    An int below [2^1024 - 2^970] rounds to a double; from there on the
    conversion raises OverflowError ("int too large to convert to float"),
    which happens in [put] before the store is touched.  The addition is
    only made when [ttl > 0]. *)
Definition converts_to_float (t : Z) : Prop := t < 2 ^ 1024 - 2 ^ 970.

(** [put(key, value, ttl)]; [t_exp], [t_sweep], [t_created] are its three
    clock readings, in program order.  This is the method for an effective
    TTL that [converts_to_float]; the OverflowError of larger TTLs is not
    part of it, and statements about what [put] returns or stores for a
    positive TTL carry that condition. *)
Definition put (c : InMemoryCache) (key : string) (v : pyval) (ttl0 : option Z)
    (t_exp t_sweep t_created : Z) : InMemoryCache * res bool :=
  let ttl1 := effective_ttl c ttl0 in
  let c1 := _evict_expired c t_sweep in
  let '(c2, r) :=
    if OD.contains key (_cache c1)
    then (with_cache c1 (OD.delitem key (_cache c1)), Ok tt)
    else _evict_lru c1 in
  match r with
  | Raise e => (c2, Raise e)
  | Ok _ =>
      (with_cache c2
         (OD.setitem key (new_item ttl1 v t_exp t_created) (_cache c2)),
       Ok true)
  end.

(** [get(key)] at clock reading [now]; Python's [None] is the miss result *)
Definition get (c : InMemoryCache) (key : string) (now : Z)
  : InMemoryCache * pyval :=
  match OD.getitem key (_cache c) with
  | None => (c, PyNone)
  | Some it =>
      if _is_expired it now
      then (with_cache c (OD.delitem key (_cache c)), PyNone)
      else
        match OD.move_to_end key (_cache c) with
        | Some d' => (with_cache c d', value it)
        | None => (c, value it)
        end
  end.

(** [delete(key)] *)
Definition delete (c : InMemoryCache) (key : string) : InMemoryCache * bool :=
  if OD.contains key (_cache c)
  then (with_cache c (OD.delitem key (_cache c)), true)
  else (c, false).

(** [clear()] *)
Definition clear (c : InMemoryCache) : InMemoryCache := with_cache c [].

(** [size()] *)
Definition size (c : InMemoryCache) (now : Z) : InMemoryCache * Z :=
  let c1 := _evict_expired c now in (c1, len c1).

(** the dictionary returned by [stats()] *)
Record stats_dict : Type := Stats {
  stats_size : Z;
  stats_max_size : Z;
  stats_default_ttl : Z
}.

(** [stats()] *)
Definition stats (c : InMemoryCache) (now : Z) : InMemoryCache * stats_dict :=
  let c1 := _evict_expired c now in
  (c1, {| stats_size := len c1;
          stats_max_size := max_size c1;
          stats_default_ttl := default_ttl c1 |}).

(** ** Sequences of calls *)

Inductive op : Type :=
| OpPut (key : string) (v : pyval) (ttl0 : option Z) (t_exp t_sweep t_created : Z)
| OpGet (key : string) (now : Z)
| OpDelete (key : string)
| OpClear
| OpSize (now : Z)
| OpStats (now : Z).

(** the store a call leaves behind *)
Definition step (c : InMemoryCache) (o : op) : InMemoryCache :=
  match o with
  | OpPut k v t0 a b d => fst (put c k v t0 a b d)
  | OpGet k now => fst (get c k now)
  | OpDelete k => fst (delete c k)
  | OpClear => clear c
  | OpSize now => fst (size c now)
  | OpStats now => fst (stats c now)
  end.

Definition run (c : InMemoryCache) (ops : list op) : InMemoryCache :=
  fold_left step ops c.

(** [get] reaches [move_to_end]: the key is stored and not expired *)
Definition get_hits (c : InMemoryCache) (key : string) (now : Z) : bool :=
  match OD.getitem key (_cache c) with
  | Some it => negb (_is_expired it now)
  | None => false
  end.

(** the key a call inserts, overwrites or returns successfully, if any *)
Definition touched (c : InMemoryCache) (o : op) : option string :=
  match o with
  | OpPut k v t0 a b d =>
      match snd (put c k v t0 a b d) with Ok _ => Some k | Raise _ => None end
  | OpGet k now => if get_hits c k now then Some k else None
  | _ => None
  end.

(** a list of keys with [k] moved (or added) to its end *)
Definition bump (k : string) (order : list string) : list string :=
  filter (fun x => negb (String.eqb k x)) order ++ [k].

(** the keys touched so far, least recently touched first *)
Fixpoint touch_order (c : InMemoryCache) (order : list string) (ops : list op)
  : list string :=
  match ops with
  | [] => order
  | o :: ops' =>
      touch_order (step c o)
        (match touched c o with Some k => bump k order | None => order end)
        ops'
  end.

Definition last_key (l : list string) : option string :=
  match rev l with
  | [] => None
  | k :: _ => Some k
  end.

(** the key of the most recent call that inserted, overwrote or successfully
    returned an entry; [acc] is the answer for the calls already made *)
Fixpoint last_touched (c : InMemoryCache) (acc : option string) (ops : list op)
  : option string :=
  match ops with
  | [] => acc
  | o :: ops' =>
      last_touched (step c o)
        (match touched c o with Some k => Some k | None => acc end)
        ops'
  end.

(** the keys of [c] are the keys of [order] that are still stored, in the
    same relative order, and [order] lists no key twice *)
Definition ordered_by (order : list string) (c : InMemoryCache) : Prop :=
  NoDup order /\ exists f, OD.keys (_cache c) = filter f order.

(** ** The HTTP binding: [get_cache_item] and [put_cache_item] *)

Module Api.

(** what a handler reads of flask's [request]: [is_json] (the Content-Type
    test) and the outcome of [get_json()], which either yields the parsed
    body or raises *)
Record request : Type := Request {
  is_json : bool;
  get_json : res pyval
}.

(** [jsonify(body), status] *)
Record response : Type := Response {
  status : Z;
  body : list (string * pyval)
}.

(** the [except Exception as e] branch shared by the handlers *)
Definition internal_error (e : exn) : response :=
  {| status := 500;
     body := [("error", PyStr ("Internal server error: " ++ str_exn e)%string)] |}.

(** [dict.get(k)] / [dict[k]] on a parsed JSON object *)
Fixpoint dict_lookup (k : string) (d : list (string * pyval)) : option pyval :=
  match d with
  | [] => None
  | (k', v) :: d' => if String.eqb k k' then Some v else dict_lookup k d'
  end.

Definition type_name (x : pyval) : string :=
  match x with
  | PyNone => "NoneType"
  | PyBool _ => "bool"
  | PyInt _ => "int"
  | PyFloat _ _ => "float"
  | PyStr _ => "str"
  | PyList _ => "list"
  | PyDict _ => "dict"
  end.

(** [needle in data] for a string [needle]: key membership on a dict,
    element equality on a list, substring on a str, TypeError elsewhere *)
Definition py_in (needle : string) (data : pyval) : res bool :=
  match data with
  | PyDict d =>
      Ok (match dict_lookup needle d with Some _ => true | None => false end)
  | PyList l =>
      Ok (existsb (fun x => match x with
                            | PyStr s => String.eqb needle s
                            | _ => false
                            end) l)
  | PyStr s =>
      Ok (match String.index 0 needle s with Some _ => true | None => false end)
  | _ =>
      Raise (TypeError ("argument of type '" ++ type_name data
                        ++ "' is not iterable")%string)
  end.

(** [data[k]] for a string [k] *)
Definition py_getitem (k : string) (data : pyval) : res pyval :=
  match data with
  | PyDict d =>
      match dict_lookup k d with
      | Some v => Ok v
      | None => Raise (KeyError k)
      end
  | PyList _ => Raise (TypeError "list indices must be integers or slices, not str")
  | PyStr _ => Raise (TypeError "string indices must be integers")
  | _ => Raise (TypeError ("'" ++ type_name data
                           ++ "' object is not subscriptable")%string)
  end.

(** [data.get(k, None)] *)
Definition py_get (k : string) (data : pyval) : res pyval :=
  match data with
  | PyDict d =>
      Ok (match dict_lookup k d with Some v => v | None => PyNone end)
  | _ => Raise (AttributeError ("'" ++ type_name data
                                ++ "' object has no attribute 'get'")%string)
  end.

(** [isinstance(x, int)]: [bool] is a subclass of [int] *)
Definition isinstance_int (x : pyval) : bool :=
  match x with
  | PyInt _ | PyBool _ => true
  | _ => false
  end.

(** the integer an [int] instance denotes ([True] is 1, [False] is 0) *)
Definition int_of (x : pyval) : Z :=
  match x with
  | PyInt z => z
  | PyBool b => Z.b2z b
  | _ => 0
  end.

(** truth value, as [or] tests it *)
Definition truthy (x : pyval) : bool :=
  match x with
  | PyNone => false
  | PyBool b => b
  | PyInt z => negb (z =? 0)
  | PyFloat m _ => negb (m =? 0)
  | PyStr s => negb (String.eqb s "")
  | PyList l => match l with [] => false | _ => true end
  | PyDict d => match d with [] => false | _ => true end
  end.

(** [x or y] *)
Definition py_or (x y : pyval) : pyval := if truthy x then x else y.

(** the validated [ttl] as [cache.put] receives it *)
Definition ttl_arg (x : pyval) : option Z :=
  match x with
  | PyNone => None
  | _ => Some (int_of x)
  end.

Definition bad_request (msg : string) : response :=
  {| status := 400; body := [("error", PyStr msg)] |}.

(** [get_cache_item(key)]; [now] is the clock reading of [cache.get],
    [stamp] is [datetime.now().isoformat()] *)
Definition get_cache_item (cache : InMemoryCache) (key : string) (now : Z)
    (stamp : string) : InMemoryCache * response :=
  let '(cache', v) := get cache key now in
  match v with
  | PyNone =>
      (cache', {| status := 404;
                  body := [("error", PyStr "Key not found or expired");
                           ("key", PyStr key)] |})
  | _ =>
      (cache', {| status := 200;
                  body := [("key", PyStr key); ("value", v);
                           ("timestamp", PyStr stamp)] |})
  end.

(** [put_cache_item(key)]; [t_exp], [t_sweep], [t_created] are the clock
    readings of [cache.put], [stamp] is [datetime.now().isoformat()].  As
    for [put], an effective TTL that does not [converts_to_float] is
    outside this definition: there [cache.put] raises OverflowError and the
    [except] branch answers 500. *)
Definition put_cache_item (cache : InMemoryCache) (req : request) (key : string)
    (t_exp t_sweep t_created : Z) (stamp : string) : InMemoryCache * response :=
  if negb (is_json req) then
    (cache, bad_request "Content-Type must be application/json")
  else
    match get_json req with
    | Raise e => (cache, internal_error e)
    | Ok data =>
        match py_in "value" data with
        | Raise e => (cache, internal_error e)
        | Ok false => (cache, bad_request "Missing required field: value")
        | Ok true =>
            match py_getitem "value" data with
            | Raise e => (cache, internal_error e)
            | Ok v =>
                match py_get "ttl" data with
                | Raise e => (cache, internal_error e)
                | Ok ttl0 =>
                    if match ttl0 with
                       | PyNone => false
                       | _ => negb (isinstance_int ttl0) || (int_of ttl0 <? 0)
                       end
                    then (cache, bad_request "TTL must be a non-negative integer")
                    else
                      match put cache key v (ttl_arg ttl0)
                                t_exp t_sweep t_created with
                      | (cache', Raise e) => (cache', internal_error e)
                      | (cache', Ok true) =>
                          (cache',
                           {| status := 201;
                              body := [("message", PyStr "Value stored successfully");
                                       ("key", PyStr key);
                                       ("ttl", py_or ttl0 (PyInt (default_ttl cache')));
                                       ("timestamp", PyStr stamp)] |})
                      | (cache', Ok false) =>
                          (cache',
                           {| status := 500;
                              body := [("error", PyStr "Failed to store value")] |})
                      end
                end
            end
        end
    end.

(** a JSON value that is an integer [>= 0]: what the interface documents
    for [ttl] *)
Definition is_nonneg_integer (x : pyval) : bool :=
  match x with
  | PyInt z => 0 <=? z
  | _ => false
  end.

(** a request with a JSON Content-Type whose body parses to the object [d] *)
Definition json_object (d : list (string * pyval)) : request :=
  {| is_json := true; get_json := Ok (PyDict d) |}.

(** the module-level [cache = InMemoryCache(max_size=1000, default_ttl=3600)] *)
Definition cache0 : InMemoryCache := init 1000 3600.

(** [delete_cache_item(key)]; [stamp] is [datetime.now().isoformat()] *)
Definition delete_cache_item (cache : InMemoryCache) (key : string)
    (stamp : string) : InMemoryCache * response :=
  let '(cache', success) := delete cache key in
  if success then
    (cache', {| status := 200;
                body := [("message", PyStr "Key deleted successfully");
                         ("key", PyStr key);
                         ("timestamp", PyStr stamp)] |})
  else
    (cache', {| status := 404;
                body := [("error", PyStr "Key not found");
                         ("key", PyStr key)] |}).

(** [get_cache_stats()]; [now] is the clock reading of [cache.stats()] *)
Definition get_cache_stats (cache : InMemoryCache) (now : Z) (stamp : string)
  : InMemoryCache * response :=
  let '(cache', st) := stats cache now in
  (cache', {| status := 200;
              body := [("size", PyInt (stats_size st));
                       ("max_size", PyInt (stats_max_size st));
                       ("default_ttl", PyInt (stats_default_ttl st));
                       ("timestamp", PyStr stamp)] |}).

(** [clear_cache()] *)
Definition clear_cache (cache : InMemoryCache) (stamp : string)
  : InMemoryCache * response :=
  (clear cache,
   {| status := 200;
      body := [("message", PyStr "Cache cleared successfully");
               ("timestamp", PyStr stamp)] |}).

End Api.

(** ** LoadBalancer.py: the round-robin forwarder

    The module keeps [BACKENDS] and the global index [current]; [do_GET]
    picks [BACKENDS[current]] and advances [current] under the lock, then
    forwards the request with [requests.get].  The network is an input: a
    function from the requested URL to what [requests.get] does there. *)

Module LoadBalancer.

Definition BACKENDS : list string :=
  ["http://localhost:8001"; "http://localhost:8002"; "http://localhost:8003"].

(** [xs[i]] on a Python list: a negative index counts from the end, [None]
    stands for the IndexError *)
Definition py_index (A : Type) (xs : list A) (i : Z) : option A :=
  let n := Z.of_nat (List.length xs) in
  if (0 <=? i) && (i <? n) then nth_error xs (Z.to_nat i)
  else if (- n <=? i) && (i <? 0) then nth_error xs (Z.to_nat (n + i))
  else None.

(** the body of [with lock:]: the backend picked and the new [current];
    when the index is out of range nothing is assigned *)
Definition pick (current : Z) : option string * Z :=
  match py_index BACKENDS current with
  | Some backend =>
      (Some backend, (current + 1) mod Z.of_nat (List.length BACKENDS))
  | None => (None, current)
  end.

(** [c.lower()] on an ASCII character *)
Definition lower_ascii (c : Ascii.ascii) : Ascii.ascii :=
  let n := Ascii.nat_of_ascii c in
  if (65 <=? n)%nat && (n <=? 90)%nat then Ascii.ascii_of_nat (n + 32) else c.

(** [s.lower()]; header names are ASCII, and no non-ASCII name lowers to
    ['content-encoding'] *)
Fixpoint lower (s : string) : string :=
  match s with
  | EmptyString => EmptyString
  | String c s' => String (lower_ascii c) (lower s')
  end.

(** what [requests.get] returns *)
Record backend_response : Type := BackendResponse {
  status_code : Z;
  headers : list (string * string);
  content : string
}.

(** what [requests.get] does: it returns a response or raises a
    [RequestException] whose [str] is [msg] *)
Inductive upstream : Type :=
| Responded (r : backend_response)
| RequestException (msg : string).

(** what the handler sends to its client: [send_response], the
    [send_header] calls in order, and the bytes written to [wfile] *)
Record sent : Type := Sent {
  sent_status : Z;
  sent_headers : list (string * string);
  sent_body : string
}.

(** the [try] block of [do_GET] once the backend is picked *)
Definition forward (backend path : string) (network : string -> upstream)
  : sent :=
  match network (backend ++ path)%string with
  | Responded r =>
      {| sent_status := status_code r;
         sent_headers :=
           filter (fun h => negb (String.eqb (lower (fst h))
                                             "content-encoding"))
                  (headers r);
         sent_body := content r |}
  | RequestException msg =>
      {| sent_status := 502;
         sent_headers := [];
         sent_body := ("Bad Gateway: " ++ msg)%string |}
  end.

(** [do_GET]: the new [current], and the URL requested with what was sent;
    [None] when [BACKENDS[current]] raised IndexError *)
Definition do_GET (current : Z) (path : string) (network : string -> upstream)
  : Z * option (string * sent) :=
  match pick current with
  | (Some backend, current') =>
      (current', Some ((backend ++ path)%string, forward backend path network))
  | (None, current') => (current', None)
  end.

(** a sequence of requests, each with its path and the network it meets *)
Fixpoint serve (current : Z) (reqs : list (string * (string -> upstream)))
  : Z * list (option (string * sent)) :=
  match reqs with
  | [] => (current, [])
  | (path, network) :: reqs' =>
      let '(current', out) := do_GET current path network in
      let '(final, outs) := serve current' reqs' in
      (final, out :: outs)
  end.

End LoadBalancer.

(** ** The eviction scenario

    [InMemoryCache(max_size=2, default_ttl=dt)], then [put(a, 1)],
    [put(b, 2)], [get(a)], [put(c, 3)]; [clk n] is the n-th reading of
    [time.time()]. *)
Definition lru_scenario (dt : Z) (clk : nat -> Z) : InMemoryCache :=
  run (init 2 dt)
      [OpPut "a" (PyInt 1) None (clk 0%nat) (clk 1%nat) (clk 2%nat);
       OpPut "b" (PyInt 2) None (clk 3%nat) (clk 4%nat) (clk 5%nat);
       OpGet "a" (clk 6%nat);
       OpPut "c" (PyInt 3) None (clk 7%nat) (clk 8%nat) (clk 9%nat)].

(** ** Sample stores and requests, used to exercise the statements below *)

Module Samples.

(** one entry ["a"] written at time 5 with a TTL of 5 seconds *)
Definition one_timed : InMemoryCache :=
  {| max_size := 2; default_ttl := 3600;
     _cache := [("a", {| value := PyInt 1; expiry := Some (5, 10);
                         created_at := 5 |})] |}.

(** a store of capacity 2 holding ["a"] then ["b"], neither with a TTL *)
Definition full_ab : InMemoryCache :=
  {| max_size := 2; default_ttl := 3600;
     _cache := [("a", {| value := PyInt 1; expiry := None; created_at := 0 |});
                ("b", {| value := PyInt 2; expiry := None; created_at := 1 |})] |}.

(** [{"value": "x", "ttl": ttl}] sent with a JSON Content-Type *)
Definition body_with_ttl (ttl0 : pyval) : Api.request :=
  Api.json_object [("value", PyStr "x"); ("ttl", ttl0)].

(** [{"value": "x"}] sent with a JSON Content-Type *)
Definition body_without_ttl : Api.request :=
  Api.json_object [("value", PyStr "x")].

End Samples.

(** * Properties *)

(** ** Facts about the ordered dictionary *)

Section OrderedDictFacts.
Variable V : Type.
Implicit Types (d : OD.t V) (k : string) (v : V).

Lemma getitem_app k d1 d2 :
  OD.getitem k (d1 ++ d2) =
  match OD.getitem k d1 with
  | Some v => Some v
  | None => OD.getitem k d2
  end.
Proof.
  induction d1 as [|[k1 v1] d1 IH]; simpl; [reflexivity|].
  destruct (String.eqb k k1); [reflexivity | exact IH].
Qed.

Lemma getitem_delitem_same k d : OD.getitem k (OD.delitem k d) = None.
Proof.
  induction d as [|[k1 v1] d IH]; simpl; [reflexivity|].
  destruct (String.eqb k k1) eqn:E; simpl; [exact IH|].
  rewrite E. exact IH.
Qed.

Lemma getitem_delitem_other k k' d :
  k <> k' -> OD.getitem k' (OD.delitem k d) = OD.getitem k' d.
Proof.
  intros Hne.
  induction d as [|[k1 v1] d IH]; simpl; [reflexivity|].
  destruct (String.eqb k k1) eqn:E; simpl.
  - apply String.eqb_eq in E. subst k1.
    destruct (String.eqb k' k) eqn:E'; [|exact IH].
    apply String.eqb_eq in E'. congruence.
  - destruct (String.eqb k' k1); [reflexivity | exact IH].
Qed.

Lemma getitem_filter_none k (f : string * V -> bool) d :
  OD.getitem k d = None -> OD.getitem k (filter f d) = None.
Proof.
  induction d as [|[k1 v1] d IH]; simpl; [reflexivity|].
  destruct (String.eqb k k1) eqn:E; [discriminate|].
  intros H. destruct (f (k1, v1)); simpl; [rewrite E|]; auto.
Qed.

Lemma setitem_absent k v d :
  OD.getitem k d = None -> OD.setitem k v d = d ++ [(k, v)].
Proof.
  induction d as [|[k1 v1] d IH]; simpl; [reflexivity|].
  destruct (String.eqb k k1); [discriminate|].
  intros H. now rewrite IH.
Qed.

Lemma getitem_In k v d : OD.getitem k d = Some v -> In (k, v) d.
Proof.
  induction d as [|[k1 v1] d IH]; simpl; [discriminate|].
  destruct (String.eqb k k1) eqn:E.
  - apply String.eqb_eq in E. intros [= ->]. left. now subst.
  - intros H. right. auto.
Qed.

Lemma getitem_none_keys k d :
  OD.getitem k d = None <-> ~ In k (OD.keys d).
Proof.
  induction d as [|[k1 v1] d IH]; simpl.
  - tauto.
  - destruct (String.eqb k k1) eqn:E.
    + apply String.eqb_eq in E. subst. split; [discriminate | tauto].
    + apply String.eqb_neq in E. rewrite IH. split.
      * intros H [H1|H1]; [congruence | tauto].
      * tauto.
Qed.

Lemma contains_keys k d : OD.contains k d = true <-> In k (OD.keys d).
Proof.
  unfold OD.contains.
  destruct (OD.getitem k d) eqn:E.
  - split; [intros _ | reflexivity].
    apply getitem_In in E. apply (in_map fst) in E. exact E.
  - apply getitem_none_keys in E. split; [discriminate | tauto].
Qed.

Lemma keys_filter_key (g : string -> bool) d :
  OD.keys (filter (fun p => g (fst p)) d) = filter g (OD.keys d).
Proof.
  induction d as [|[k1 v1] d IH]; simpl; [reflexivity|].
  destruct (g k1); simpl; now rewrite IH.
Qed.

Lemma keys_delitem k d :
  OD.keys (OD.delitem k d) = filter (fun x => negb (String.eqb k x)) (OD.keys d).
Proof. apply (keys_filter_key (fun x => negb (String.eqb k x))). Qed.

Lemma length_delitem k d : (List.length (OD.delitem k d) <= List.length d)%nat.
Proof. apply filter_length_le. Qed.

(** deleting a list of keys one after the other removes exactly the pairs
    whose key is in the list *)
Lemma fold_delitem (ks : list string) d :
  fold_left (fun d k => OD.delitem k d) ks d =
  filter (fun p => negb (existsb (String.eqb (fst p)) ks)) d.
Proof.
  revert d. induction ks as [|k ks IH]; intros d; simpl.
  - induction d as [|p d IHd]; simpl; [reflexivity | now rewrite <- IHd].
  - rewrite IH. unfold OD.delitem.
    induction d as [|p d IHd]; simpl; [reflexivity|].
    rewrite (String.eqb_sym (fst p) k).
    destruct (String.eqb k (fst p)); simpl.
    + exact IHd.
    + destruct (existsb (String.eqb (fst p)) ks); simpl; now rewrite IHd.
Qed.

Lemma move_to_end_present k v d :
  OD.getitem k d = Some v ->
  OD.move_to_end k d = Some (OD.delitem k d ++ [(k, v)]).
Proof. unfold OD.move_to_end. now intros ->. Qed.
End OrderedDictFacts.

(** ** The expiry policy *)

(** project a store built by [with_cache] without unfolding the sweep *)
Ltac store_simpl :=
  cbn [fst snd _cache max_size default_ttl with_cache] in *.

Lemma cache_with_cache c d : _cache (with_cache c d) = d.
Proof. reflexivity. Qed.

Lemma with_cache_id c : with_cache c (_cache c) = c.
Proof. now destruct c. Qed.

Lemma sweep_hit_is_expired now it : sweep_hit now it = _is_expired it now.
Proof.
  unfold sweep_hit, _is_expired, ttl, expires_at.
  now destruct (expiry it) as [[t e]|].
Qed.

(** an item is expired exactly when it carries a TTL and its [expires_at] is
    strictly before the reading *)
Lemma is_expired_true it now :
  _is_expired it now = true <->
  exists t e, expiry it = Some (t, e) /\ e < now.
Proof.
  unfold _is_expired, ttl, expires_at.
  destruct (expiry it) as [[t e]|]; simpl.
  - rewrite Z.ltb_lt. split.
    + intros H. now exists t, e.
    + intros (t' & e' & [= <- <-] & H). exact H.
  - split; [discriminate|]. intros (t & e & H & _). discriminate.
Qed.

Lemma is_expired_false it now :
  _is_expired it now = false <->
  ttl it = None \/ exists e, expires_at it = Some e /\ now <= e.
Proof.
  unfold _is_expired, ttl, expires_at.
  destruct (expiry it) as [[t e]|]; simpl.
  - rewrite Z.ltb_ge. split.
    + intros H. right. now exists e.
    + intros [H|(e' & [= <-] & H)]; [discriminate | exact H].
  - split; [now left | reflexivity].
Qed.

Lemma evict_expired_cache c now :
  _cache (_evict_expired c now) =
  filter (fun p => negb (existsb (String.eqb (fst p))
                                 (expired_keys now (_cache c))))
         (_cache c).
Proof. unfold _evict_expired. simpl. apply fold_delitem. Qed.

Lemma evict_expired_max_size c now : max_size (_evict_expired c now) = max_size c.
Proof. reflexivity. Qed.

Lemma evict_expired_default_ttl c now :
  default_ttl (_evict_expired c now) = default_ttl c.
Proof. reflexivity. Qed.

(** nothing that survives the sweep is expired at the sweep's reading *)
Lemma evict_expired_live c now p :
  In p (_cache (_evict_expired c now)) -> _is_expired (snd p) now = false.
Proof.
  rewrite evict_expired_cache, filter_In. intros [Hin Hk].
  destruct (_is_expired (snd p) now) eqn:E; [|reflexivity].
  apply negb_true_iff in Hk.
  assert (Hex : existsb (String.eqb (fst p)) (expired_keys now (_cache c)) = true).
  { apply existsb_exists. exists (fst p). split; [|apply String.eqb_refl].
    unfold expired_keys. apply in_map. apply filter_In.
    split; [exact Hin | now rewrite sweep_hit_is_expired]. }
  congruence.
Qed.

Lemma evict_expired_incl c now p :
  In p (_cache (_evict_expired c now)) -> In p (_cache c).
Proof. rewrite evict_expired_cache, filter_In. tauto. Qed.

Lemma expired_keys_nil now (d : OD.t item) :
  (forall p, In p d -> _is_expired (snd p) now = false) ->
  expired_keys now d = [].
Proof.
  intros H. unfold expired_keys.
  induction d as [|p d IH]; simpl; [reflexivity|].
  rewrite sweep_hit_is_expired, (H p (or_introl eq_refl)).
  apply IH. intros q Hq. apply H. now right.
Qed.

(** a store without expired entries is left as it is *)
Lemma evict_expired_noop c now :
  (forall p, In p (_cache c) -> _is_expired (snd p) now = false) ->
  _evict_expired c now = c.
Proof.
  intros H. unfold _evict_expired.
  rewrite (expired_keys_nil _ _ H). simpl. apply with_cache_id.
Qed.

Lemma evict_expired_idem c now :
  _evict_expired (_evict_expired c now) now = _evict_expired c now.
Proof. apply evict_expired_noop. intros p. apply evict_expired_live. Qed.

Lemma evict_expired_length c now :
  (List.length (_cache (_evict_expired c now)) <= List.length (_cache c))%nat.
Proof. rewrite evict_expired_cache. apply filter_length_le. Qed.

Lemma evict_expired_len c now : len (_evict_expired c now) <= len c.
Proof. unfold len. pose proof (evict_expired_length c now). lia. Qed.

(** the sweep keeps the order of what it keeps *)
Lemma evict_expired_keys c now :
  OD.keys (_cache (_evict_expired c now)) =
  filter (fun k => negb (existsb (String.eqb k) (expired_keys now (_cache c))))
         (OD.keys (_cache c)).
Proof.
  rewrite evict_expired_cache.
  apply (keys_filter_key
           (fun k => negb (existsb (String.eqb k) (expired_keys now (_cache c))))).
Qed.

(** ** What [put] does, branch by branch *)

Lemma list_cases (A : Type) (l : list A) :
  l = [] \/ exists p l', l = p :: l'.
Proof. destruct l as [|p l']; [now left | right; now exists p, l']. Qed.

Section PutBranches.
Variables (c : InMemoryCache) (key : string) (v : pyval) (ttl0 : option Z).
Variables (t_exp t_sweep t_created : Z).

Let swept := _cache (_evict_expired c t_sweep).
Let it := new_item (effective_ttl c ttl0) v t_exp t_created.

(** the key survives the sweep: it is deleted and re-inserted last, and
    [_evict_lru] is not called *)
Lemma put_overwrite :
  OD.contains key swept = true ->
  put c key v ttl0 t_exp t_sweep t_created =
  (with_cache c (OD.delitem key swept ++ [(key, it)]), Ok true).
Proof.
  intros H. unfold put. fold swept. rewrite H. simpl.
  rewrite setitem_absent by apply getitem_delitem_same.
  reflexivity.
Qed.

(** a new key and room left: nothing is evicted *)
Lemma put_insert_room :
  OD.contains key swept = false ->
  len (_evict_expired c t_sweep) < max_size c ->
  put c key v ttl0 t_exp t_sweep t_created =
  (with_cache c (swept ++ [(key, it)]), Ok true).
Proof.
  intros H Hlen. unfold put, _evict_lru. fold swept. rewrite H.
  rewrite evict_expired_max_size.
  apply Z.leb_gt in Hlen. rewrite Hlen. simpl. fold swept.
  unfold OD.contains in H.
  destruct (OD.getitem key swept) eqn:E; [discriminate|].
  rewrite (setitem_absent _ _ _ E). reflexivity.
Qed.

(** a new key and no room: the first entry goes, then the key is added *)
Lemma put_insert_full p d' :
  OD.contains key swept = false ->
  max_size c <= len (_evict_expired c t_sweep) ->
  swept = p :: d' ->
  put c key v ttl0 t_exp t_sweep t_created =
  (with_cache c (d' ++ [(key, it)]), Ok true).
Proof.
  intros H Hlen Hs. unfold put, _evict_lru. fold swept. rewrite H.
  rewrite evict_expired_max_size.
  apply Z.leb_le in Hlen. rewrite Hlen. fold swept. rewrite Hs. simpl.
  unfold OD.contains in H. rewrite Hs in H. destruct p as [k1 v1].
  simpl in H. destruct (String.eqb key k1); [discriminate|].
  destruct (OD.getitem key d') eqn:E; [discriminate|].
  rewrite (setitem_absent _ _ _ E). reflexivity.
Qed.

(** a new key, no room and nothing to evict: [popitem] raises; this needs
    [max_size <= 0] *)
Lemma put_insert_raises :
  max_size c <= len (_evict_expired c t_sweep) ->
  swept = [] ->
  put c key v ttl0 t_exp t_sweep t_created =
  (_evict_expired c t_sweep, Raise (KeyError "dictionary is empty")).
Proof.
  intros Hlen Hs. unfold put, _evict_lru. fold swept. rewrite Hs.
  cbn [OD.contains OD.getitem].
  rewrite evict_expired_max_size.
  apply Z.leb_le in Hlen. rewrite Hlen. reflexivity.
Qed.

(** with a positive capacity [put] always returns [True] *)
Lemma put_returns :
  0 < max_size c ->
  snd (put c key v ttl0 t_exp t_sweep t_created) = Ok true.
Proof.
  intros Hpos.
  destruct (OD.contains key swept) eqn:Hc.
  - now rewrite put_overwrite.
  - destruct (Z.ltb_spec (len (_evict_expired c t_sweep)) (max_size c)) as [Hl|Hl].
    + now rewrite put_insert_room.
    + destruct (list_cases swept) as [Hs|(p & d' & Hs)].
      * exfalso. unfold len in Hl. fold swept in Hl. rewrite Hs in Hl.
        simpl in Hl. lia.
      * now rewrite (put_insert_full Hc Hl Hs).
Qed.

(** whenever [put] returns, the key and the item it built are the last
    pair of the dictionary, and the key occurs nowhere before *)
Lemma put_last b :
  snd (put c key v ttl0 t_exp t_sweep t_created) = Ok b ->
  exists d,
    _cache (fst (put c key v ttl0 t_exp t_sweep t_created)) = d ++ [(key, it)]
    /\ OD.getitem key d = None.
Proof.
  intros Hok.
  destruct (OD.contains key swept) eqn:Hc.
  - rewrite put_overwrite by assumption. simpl.
    exists (OD.delitem key swept). split; [reflexivity|].
    apply getitem_delitem_same.
  - assert (Hnone : OD.getitem key swept = None).
    { unfold OD.contains in Hc. now destruct (OD.getitem key swept). }
    destruct (Z.ltb_spec (len (_evict_expired c t_sweep)) (max_size c)) as [Hl|Hl].
    + rewrite put_insert_room by assumption. simpl.
      exists swept. split; [reflexivity | exact Hnone].
    + destruct (list_cases swept) as [Hs|(p & d' & Hs)].
      * rewrite put_insert_raises in Hok by assumption. discriminate.
      * rewrite (put_insert_full Hc Hl Hs). simpl.
        exists d'. split; [reflexivity|].
        rewrite Hs in Hnone. destruct p as [k1 v1]. simpl in Hnone.
        now destruct (String.eqb key k1).
Qed.
End PutBranches.

(** ** What [get] does, branch by branch *)

Lemma get_absent c key now :
  OD.getitem key (_cache c) = None -> get c key now = (c, PyNone).
Proof. unfold get. now intros ->. Qed.

Lemma get_expired c key now it :
  OD.getitem key (_cache c) = Some it ->
  _is_expired it now = true ->
  get c key now = (with_cache c (OD.delitem key (_cache c)), PyNone).
Proof. unfold get. now intros -> ->. Qed.

Lemma get_live c key now it :
  OD.getitem key (_cache c) = Some it ->
  _is_expired it now = false ->
  get c key now =
  (with_cache c (OD.delitem key (_cache c) ++ [(key, it)]), value it).
Proof.
  unfold get. intros H He. rewrite H, He.
  now rewrite (move_to_end_present _ _ H).
Qed.

(** the last pair of a dictionary is what [getitem] finds for its key when
    the key does not occur before *)
Lemma getitem_last (V : Type) (d : OD.t V) key (x : V) :
  OD.getitem key d = None -> OD.getitem key (d ++ [(key, x)]) = Some x.
Proof.
  intros H. rewrite getitem_app, H. simpl. now rewrite String.eqb_refl.
Qed.

Lemma put_getitem c key v ttl0 t_exp t_sweep t_created b :
  snd (put c key v ttl0 t_exp t_sweep t_created) = Ok b ->
  OD.getitem key (_cache (fst (put c key v ttl0 t_exp t_sweep t_created))) =
  Some (new_item (effective_ttl c ttl0) v t_exp t_created).
Proof.
  intros H. destruct (put_last _ _ _ _ _ _ _ H) as (d & -> & Hd).
  now apply getitem_last.
Qed.

(** C3. [get(key)] returns the stored value when the key is stored and not
    expired (no TTL, or [now <= expires_at]), moving the entry to the end.
    When the key is stored but [now > expires_at] it returns the miss result
    [None] and the entry is gone afterwards; an absent key is a miss that
    changes nothing.  Conversely whatever [get] returns other than the miss
    result is the value of a stored entry that is not expired at [now]. *)
Theorem get_serves_only_live_entries c key now :
  (OD.getitem key (_cache c) = None -> get c key now = (c, PyNone))
  /\ (forall it e,
        OD.getitem key (_cache c) = Some it ->
        expires_at it = Some e -> e < now ->
        get c key now = (with_cache c (OD.delitem key (_cache c)), PyNone)
        /\ OD.contains key (_cache (fst (get c key now))) = false)
  /\ (forall it,
        OD.getitem key (_cache c) = Some it ->
        (ttl it = None \/ exists e, expires_at it = Some e /\ now <= e) ->
        get c key now =
        (with_cache c (OD.delitem key (_cache c) ++ [(key, it)]), value it))
  /\ (forall v,
        snd (get c key now) = v -> v <> PyNone ->
        exists it,
          OD.getitem key (_cache c) = Some it /\ value it = v
          /\ (ttl it = None \/ exists e, expires_at it = Some e /\ now <= e)).
Proof.
  split; [apply get_absent|].
  split.
  { intros it e Hit He Hlt.
    assert (Hx : _is_expired it now = true).
    { apply is_expired_true. unfold expires_at in He.
      destruct (expiry it) as [[t e']|]; [|discriminate].
      injection He as ->. now exists t, e. }
    rewrite (get_expired _ _ _ Hit Hx). split; [reflexivity|].
    simpl. unfold OD.contains. now rewrite getitem_delitem_same. }
  split.
  { intros it Hit Hlive. apply get_live; [exact Hit|].
    now apply is_expired_false. }
  intros v Hv Hne.
  destruct (OD.getitem key (_cache c)) as [it|] eqn:Hit.
  - destruct (_is_expired it now) eqn:Hx.
    + rewrite (get_expired _ _ _ Hit Hx) in Hv. simpl in Hv. congruence.
    + rewrite (get_live _ _ _ Hit Hx) in Hv. simpl in Hv.
      exists it. split; [reflexivity|]. split; [exact Hv|].
      now apply is_expired_false.
  - rewrite (get_absent _ _ _ Hit) in Hv. simpl in Hv. congruence.
Qed.

Lemma get_serves_only_live_entries_witness :
  get Samples.one_timed "b" 0 = (Samples.one_timed, PyNone)
  /\ get Samples.one_timed "a" 11 = (with_cache Samples.one_timed [], PyNone)
  /\ snd (get Samples.one_timed "a" 10) = PyInt 1
  /\ exists it, OD.getitem "a" (_cache Samples.one_timed) = Some it
                /\ value it = PyInt 1.
Proof.
  destruct (get_serves_only_live_entries Samples.one_timed "b" 0)
    as (Habsent & _).
  destruct (get_serves_only_live_entries Samples.one_timed "a" 11)
    as (_ & Hexpired & _).
  destruct (get_serves_only_live_entries Samples.one_timed "a" 10)
    as (_ & _ & Hlive & Hconv).
  split; [apply Habsent; reflexivity|].
  split.
  { refine (proj1 (Hexpired _ 10 eq_refl eq_refl _)). lia. }
  split.
  { rewrite (Hlive _ eq_refl); [reflexivity|].
    right. exists 10. split; [reflexivity | lia]. }
  destruct (Hconv (PyInt 1)) as (it & Hit & Hv & _).
  - reflexivity.
  - discriminate.
  - exists it. split; assumption.
Defined.

(** ** A TTL of zero or less *)

Lemma new_item_no_ttl t v t_exp t_created :
  t <= 0 ->
  new_item t v t_exp t_created =
  {| value := v; expiry := None; created_at := t_created |}.
Proof.
  intros H. unfold new_item.
  destruct (Z.ltb_spec 0 t); [lia | reflexivity].
Qed.

(** an entry without expiry is served whatever the clock says, and is still
    there afterwards *)
Lemma get_no_expiry c key now it :
  OD.getitem key (_cache c) = Some it ->
  expiry it = None ->
  get c key now =
  (with_cache c (OD.delitem key (_cache c) ++ [(key, it)]), value it)
  /\ OD.getitem key (_cache (fst (get c key now))) = Some it.
Proof.
  intros Hit He.
  assert (Hx : _is_expired it now = false).
  { unfold _is_expired, ttl. now rewrite He. }
  rewrite (get_live _ _ _ Hit Hx). split; [reflexivity|].
  simpl. apply getitem_last, getitem_delitem_same.
Qed.

(** C1. [put(key, value, ttl)] with an explicit [ttl <= 0] stores the entry
    without expiry: the item written has neither ['ttl'] nor ['expires_at'],
    it is the item any other non-positive TTL would write, and [get(key)]
    returns [value] at every clock reading, leaving the entry in place.
    With a positive capacity the [put] returns [True]. *)
Theorem put_nonpositive_ttl_never_expires c key v t t_exp t_sweep t_created :
  t <= 0 ->
  (0 < max_size c ->
   snd (put c key v (Some t) t_exp t_sweep t_created) = Ok true)
  /\ put c key v (Some t) t_exp t_sweep t_created =
     put c key v (Some 0) t_exp t_sweep t_created
  /\ (forall b,
        snd (put c key v (Some t) t_exp t_sweep t_created) = Ok b ->
        let c' := fst (put c key v (Some t) t_exp t_sweep t_created) in
        let it := {| value := v; expiry := None; created_at := t_created |} in
        OD.getitem key (_cache c') = Some it
        /\ ttl it = None /\ expires_at it = None
        /\ forall now,
             snd (get c' key now) = v
             /\ OD.getitem key (_cache (fst (get c' key now))) = Some it).
Proof.
  intros Ht.
  split; [apply put_returns|].
  split.
  { unfold put. simpl effective_ttl.
    rewrite (new_item_no_ttl v t_exp t_created Ht).
    rewrite (new_item_no_ttl v t_exp t_created (Z.le_refl 0)).
    reflexivity. }
  intros b Hok c' it.
  assert (Hit : OD.getitem key (_cache c') = Some it).
  { unfold c'. rewrite (put_getitem _ _ _ _ _ _ _ Hok). simpl effective_ttl.
    now rewrite new_item_no_ttl. }
  split; [exact Hit|]. split; [reflexivity|]. split; [reflexivity|].
  intros now.
  destruct (get_no_expiry c' key now Hit eq_refl) as [Hg Hstill].
  split; [now rewrite Hg | exact Hstill].
Qed.

Lemma put_nonpositive_ttl_never_expires_witness :
  snd (put Samples.full_ab "c" (PyStr "v") (Some (-5)) 100 100 100) = Ok true
  /\ snd (get (fst (put Samples.full_ab "c" (PyStr "v") (Some (-5)) 100 100 100))
              "c" 1000000000) = PyStr "v".
Proof.
  assert (Hle : -5 <= 0) by lia.
  destruct (put_nonpositive_ttl_never_expires
              Samples.full_ab "c" (PyStr "v") 100 100 100 Hle)
    as (Hret & _ & Hget).
  assert (Hok : snd (put Samples.full_ab "c" (PyStr "v") (Some (-5)) 100 100 100)
                = Ok true).
  { apply Hret. reflexivity. }
  split; [exact Hok|].
  exact (proj1 (proj2 (proj2 (proj2 (Hget true Hok))) 1000000000)).
Defined.

(** ** A stored [None] *)

Lemma get_cache_item_none cache key now stamp :
  snd (get cache key now) = PyNone ->
  Api.get_cache_item cache key now stamp =
  (fst (get cache key now),
   {| Api.status := 404;
      Api.body := [("error", PyStr "Key not found or expired");
                   ("key", PyStr key)] |}).
Proof.
  unfold Api.get_cache_item.
  destruct (get cache key now) as [cache' v]. simpl. now intros ->.
Qed.

(** C10. After [put(key, None, ttl)] with [ttl > 0] (a TTL that converts to
    a double, so that [put] returns), [get(key)] returns [None], the miss
    result, at every clock reading, and [GET /cache/key] answers 404 "Key
    not found or expired"; yet up to [expires_at] the key is stored and not
    expired, before the read and after it. *)
Theorem none_value_reads_as_miss c key t t_exp t_sweep t_created now stamp :
  0 < t -> converts_to_float t -> 0 < max_size c ->
  let c' := fst (put c key PyNone (Some t) t_exp t_sweep t_created) in
  snd (put c key PyNone (Some t) t_exp t_sweep t_created) = Ok true
  /\ snd (get c' key now) = PyNone
  /\ snd (Api.get_cache_item c' key now stamp) =
     {| Api.status := 404;
        Api.body := [("error", PyStr "Key not found or expired");
                     ("key", PyStr key)] |}
  /\ (now <= t_exp + t ->
      (exists it,
         OD.getitem key (_cache c') = Some it /\ value it = PyNone
         /\ expires_at it = Some (t_exp + t) /\ _is_expired it now = false)
      /\ OD.contains key (_cache (fst (Api.get_cache_item c' key now stamp)))
         = true).
Proof.
  intros Ht _ Hms c'.
  pose proof (put_returns c key PyNone (Some t) t_exp t_sweep t_created Hms) as Hok.
  pose proof (put_getitem _ _ _ _ _ _ _ Hok) as Hit. fold c' in Hit.
  simpl effective_ttl in Hit.
  set (it := new_item t PyNone t_exp t_created) in *.
  assert (Hexp : expiry it = Some (t, t_exp + t)).
  { unfold it, new_item. simpl. destruct (Z.ltb_spec 0 t); [reflexivity | lia]. }
  assert (Hget : snd (get c' key now) = PyNone).
  { destruct (_is_expired it now) eqn:Hx.
    - now rewrite (get_expired _ _ _ Hit Hx).
    - now rewrite (get_live _ _ _ Hit Hx). }
  split; [exact Hok|]. split; [exact Hget|].
  split; [now rewrite get_cache_item_none|].
  intros Hnow.
  assert (Hx : _is_expired it now = false).
  { apply is_expired_false. right. exists (t_exp + t).
    unfold expires_at. rewrite Hexp. split; [reflexivity | exact Hnow]. }
  split.
  - exists it. split; [exact Hit|]. split; [reflexivity|].
    split; [|exact Hx]. unfold expires_at. now rewrite Hexp.
  - rewrite get_cache_item_none by exact Hget. simpl.
    rewrite (get_live _ _ _ Hit Hx). simpl.
    unfold OD.contains.
    now erewrite getitem_last by apply getitem_delitem_same.
Qed.

Lemma none_value_reads_as_miss_witness :
  snd (put Api.cache0 "k" PyNone (Some 60) 100 100 100) = Ok true
  /\ snd (get (fst (put Api.cache0 "k" PyNone (Some 60) 100 100 100)) "k" 101)
     = PyNone
  /\ Api.status
       (snd (Api.get_cache_item
               (fst (put Api.cache0 "k" PyNone (Some 60) 100 100 100))
               "k" 101 "2025-01-01T00:00:00")) = 404
  /\ OD.contains "k"
       (_cache (fst (Api.get_cache_item
                       (fst (put Api.cache0 "k" PyNone (Some 60) 100 100 100))
                       "k" 101 "2025-01-01T00:00:00"))) = true.
Proof.
  assert (Ht : 0 < 60) by lia.
  assert (Hfit : converts_to_float 60) by reflexivity.
  assert (Hms : 0 < max_size Api.cache0) by reflexivity.
  destruct (@none_value_reads_as_miss Api.cache0 "k" 60 100 100 100 101
              "2025-01-01T00:00:00" Ht Hfit Hms)
    as (Hok & Hget & Hresp & Hlive).
  split; [exact Hok|]. split; [exact Hget|].
  split; [now rewrite Hresp|].
  apply Hlive. lia.
Defined.

(** ** Keys, lengths and uniqueness *)

Section KeyLists.
Variable V : Type.
Implicit Types (d : OD.t V) (k : string) (l : list string).

Lemma keys_app d1 d2 : OD.keys (d1 ++ d2) = OD.keys d1 ++ OD.keys d2.
Proof. apply map_app. Qed.

Lemma delitem_shrinks k d :
  OD.contains k d = true ->
  (S (List.length (OD.delitem k d)) <= List.length d)%nat.
Proof.
  unfold OD.contains.
  induction d as [|[k1 v1] d IH]; simpl; [discriminate|].
  destruct (String.eqb k k1) eqn:E; simpl.
  - intros _. pose proof (length_delitem k d). lia.
  - intros H. specialize (IH H). lia.
Qed.

Lemma filter_twice (A : Type) (f g : A -> bool) (xs : list A) :
  filter g (filter f xs) = filter (fun x => f x && g x) xs.
Proof.
  induction xs as [|x xs IH]; simpl; [reflexivity|].
  destruct (f x); simpl; [|exact IH].
  destruct (g x); now rewrite IH.
Qed.

Lemma nodup_snoc k l : NoDup l -> ~ In k l -> NoDup (l ++ [k]).
Proof.
  intros Hl Hk. apply NoDup_app; [exact Hl | repeat constructor; tauto |].
  intros a Ha [<-|[]]. tauto.
Qed.

Lemma not_in_filter_self k l :
  ~ In k (filter (fun x => negb (String.eqb k x)) l).
Proof.
  rewrite filter_In. intros [_ H]. now rewrite String.eqb_refl in H.
Qed.

(** dropping the head of a duplicate-free list is filtering it out *)
Lemma nodup_tail_filter k l :
  NoDup (k :: l) -> l = filter (fun x => negb (String.eqb k x)) l.
Proof.
  intros H. apply NoDup_cons_iff in H. destruct H as [Hk _].
  induction l as [|x l IH]; simpl; [reflexivity|].
  destruct (String.eqb k x) eqn:E.
  - apply String.eqb_eq in E. subst. exfalso. apply Hk. now left.
  - simpl. f_equal. apply IH. intros Hin. apply Hk. now right.
Qed.

Lemma last_key_snoc k l : last_key (l ++ [k]) = Some k.
Proof. unfold last_key. now rewrite rev_unit. Qed.
End KeyLists.

(** ** The four ways through [put] *)

Lemma put_cases c key v ttl0 t_exp t_sweep t_created :
  let swept := _cache (_evict_expired c t_sweep) in
  let it := new_item (effective_ttl c ttl0) v t_exp t_created in
  (OD.contains key swept = true
   /\ put c key v ttl0 t_exp t_sweep t_created =
      (with_cache c (OD.delitem key swept ++ [(key, it)]), Ok true))
  \/ (OD.contains key swept = false
      /\ len (_evict_expired c t_sweep) < max_size c
      /\ put c key v ttl0 t_exp t_sweep t_created =
         (with_cache c (swept ++ [(key, it)]), Ok true))
  \/ (OD.contains key swept = false
      /\ max_size c <= len (_evict_expired c t_sweep)
      /\ exists p d', swept = p :: d'
         /\ put c key v ttl0 t_exp t_sweep t_created =
            (with_cache c (d' ++ [(key, it)]), Ok true))
  \/ (max_size c <= len (_evict_expired c t_sweep)
      /\ swept = []
      /\ put c key v ttl0 t_exp t_sweep t_created =
         (_evict_expired c t_sweep, Raise (KeyError "dictionary is empty"))).
Proof.
  intros swept it.
  destruct (OD.contains key swept) eqn:Hc.
  - left. split; [reflexivity|]. now apply put_overwrite.
  - right.
    destruct (Z.ltb_spec (len (_evict_expired c t_sweep)) (max_size c)) as [Hl|Hl].
    + left. split; [reflexivity|]. split; [exact Hl|]. now apply put_insert_room.
    + right. destruct (list_cases swept) as [Hs|(p & d' & Hs)].
      * right. split; [exact Hl|]. split; [exact Hs|].
        now apply put_insert_raises.
      * left. split; [reflexivity|]. split; [exact Hl|].
        exists p, d'. split; [exact Hs|]. now apply put_insert_full with (p := p).
Qed.

Lemma put_max_size c key v ttl0 t_exp t_sweep t_created :
  max_size (fst (put c key v ttl0 t_exp t_sweep t_created)) = max_size c.
Proof.
  destruct (put_cases c key v ttl0 t_exp t_sweep t_created)
    as [(_ & ->)|[(_ & _ & ->)|[(_ & _ & p & d' & _ & ->)|(_ & _ & ->)]]];
    reflexivity.
Qed.

Lemma step_max_size c o : max_size (step c o) = max_size c.
Proof.
  destruct o; simpl; try reflexivity.
  - apply put_max_size.
  - unfold get. destruct (OD.getitem key (_cache c)); [|reflexivity].
    destruct (_is_expired i now); [reflexivity|].
    now destruct (OD.move_to_end key (_cache c)).
  - unfold delete. now destruct (OD.contains key (_cache c)).
Qed.

Lemma run_max_size c ops : max_size (run c ops) = max_size c.
Proof.
  unfold run. revert c.
  induction ops as [|o ops IH]; intros c; simpl; [reflexivity|].
  rewrite IH. apply step_max_size.
Qed.

(** [put] never leaves more than [max_size] entries behind when it starts
    from at most [max_size] entries and the capacity is positive *)
Lemma put_len_bound c key v ttl0 t_exp t_sweep t_created :
  0 < max_size c -> len c <= max_size c ->
  len (fst (put c key v ttl0 t_exp t_sweep t_created)) <= max_size c.
Proof.
  intros Hpos Hinv.
  pose proof (evict_expired_length c t_sweep) as Hsw.
  destruct (put_cases c key v ttl0 t_exp t_sweep t_created)
    as [(Hc & ->)|[(_ & Hl & ->)|[(_ & _ & p & d' & Hs & ->)|(_ & _ & ->)]]];
    unfold len in *; store_simpl.
  - apply delitem_shrinks in Hc. rewrite length_app. cbn [List.length]. lia.
  - rewrite length_app. cbn [List.length]. lia.
  - rewrite Hs in Hsw. rewrite length_app. cbn [List.length] in *. lia.
  - lia.
Qed.

Lemma get_len c key now : len (fst (get c key now)) <= len c.
Proof.
  unfold get, len.
  destruct (OD.getitem key (_cache c)) as [it|] eqn:Hit; [|simpl; lia].
  destruct (_is_expired it now); simpl.
  - pose proof (length_delitem key (_cache c)). lia.
  - rewrite (move_to_end_present _ _ Hit). simpl. rewrite length_app. simpl.
    assert (Hc : OD.contains key (_cache c) = true).
    { unfold OD.contains. now rewrite Hit. }
    apply delitem_shrinks in Hc. lia.
Qed.

Lemma step_len_bound c o :
  0 < max_size c -> len c <= max_size c -> len (step c o) <= max_size c.
Proof.
  intros Hpos Hinv. destruct o; simpl.
  - now apply put_len_bound.
  - pose proof (get_len c key now). lia.
  - unfold delete. destruct (OD.contains key (_cache c)); simpl; [|exact Hinv].
    unfold len in *. simpl. pose proof (length_delitem key (_cache c)). lia.
  - unfold len. simpl. lia.
  - pose proof (evict_expired_len c now). lia.
  - pose proof (evict_expired_len c now). lia.
Qed.

Lemma run_len_bound c ops :
  0 < max_size c -> len c <= max_size c -> len (run c ops) <= max_size c.
Proof.
  unfold run. revert c.
  induction ops as [|o ops IH]; intros c Hpos Hinv; simpl; [exact Hinv|].
  rewrite <- (step_max_size c o).
  apply IH; rewrite step_max_size; [exact Hpos | now apply step_len_bound].
Qed.

(** ** Capacity *)

(** C2. Take a cache constructed with a positive [max_size] and used through
    any sequence of calls.  A further [put], with an effective TTL that
    converts to a double, returns [True] and leaves at most [max_size]
    entries.  When its key is new (not stored after the sweep) and
    the swept store is at or over capacity, the store is exactly at capacity,
    its first (least recently used) entry is the one entry removed, and the
    new entry is appended to what remains. *)
Theorem put_keeps_within_capacity ms dt ops key v ttl0 t_exp t_sweep t_created :
  0 < ms ->
  converts_to_float (effective_ttl (init ms dt) ttl0) ->
  let c := run (init ms dt) ops in
  let swept := _evict_expired c t_sweep in
  let c' := fst (put c key v ttl0 t_exp t_sweep t_created) in
  snd (put c key v ttl0 t_exp t_sweep t_created) = Ok true
  /\ len c <= ms
  /\ len c' <= ms
  /\ (OD.contains key (_cache swept) = false -> ms <= len swept ->
      exists lru rest,
        _cache swept = lru :: rest
        /\ _cache c' =
           rest ++ [(key, new_item (effective_ttl c ttl0) v t_exp t_created)]
        /\ len swept = ms
        /\ len c' = ms).
Proof.
  intros Hpos _ c swept c'.
  assert (Hms : max_size c = ms) by apply run_max_size.
  assert (Hinv : len c <= ms).
  { rewrite <- Hms. unfold c. rewrite run_max_size.
    apply run_len_bound; simpl; [exact Hpos | unfold len; simpl; lia]. }
  assert (Hpos' : 0 < max_size c) by now rewrite Hms.
  split; [now apply put_returns|].
  split; [exact Hinv|].
  split.
  { rewrite <- Hms. apply put_len_bound; [exact Hpos' | now rewrite Hms]. }
  intros Hnew Hfull.
  pose proof (evict_expired_len c t_sweep) as Hsw. fold swept in Hsw.
  destruct (put_cases c key v ttl0 t_exp t_sweep t_created)
    as [(Hc & _)|[(_ & Hl & _)|[(_ & _ & p & d' & Hs & Hput)|(_ & Hs & _)]]].
  - fold swept in Hc. congruence.
  - fold swept in Hl. lia.
  - exists p, d'. unfold c'. rewrite Hput. store_simpl.
    split; [exact Hs|]. split; [reflexivity|].
    assert (len swept = ms) by lia.
    split; [assumption|].
    unfold len in *. store_simpl. fold swept in Hs. rewrite Hs in *.
    rewrite length_app. cbn [List.length] in *. lia.
  - exfalso. unfold len in Hfull. fold swept in Hs. rewrite Hs in Hfull.
    simpl in Hfull. lia.
Qed.

Lemma put_keeps_within_capacity_witness :
  let ops := [OpPut "a" (PyInt 1) None 0 0 0; OpPut "b" (PyInt 2) None 1 1 1] in
  snd (put (run (init 2 3600) ops) "c" (PyInt 3) None 2 2 2) = Ok true
  /\ len (fst (put (run (init 2 3600) ops) "c" (PyInt 3) None 2 2 2)) <= 2
  /\ OD.keys (_cache (fst (put (run (init 2 3600) ops) "c" (PyInt 3) None 2 2 2)))
     = ["b"; "c"].
Proof.
  intros ops.
  assert (Hpos : 0 < 2) by lia.
  assert (Hfit : converts_to_float (effective_ttl (init 2 3600) None))
    by reflexivity.
  destruct (@put_keeps_within_capacity 2 3600 ops "c" (PyInt 3) None 2 2 2
              Hpos Hfit)
    as (Hok & _ & Hlen & Hevict).
  split; [exact Hok|]. split; [exact Hlen|].
  destruct Hevict as (lru & rest & Hs & Hc' & _).
  - reflexivity.
  - vm_compute. discriminate.
  - rewrite Hc'. vm_compute in Hs. injection Hs as _ <-. reflexivity.
Defined.

(** ** Overwriting *)

(** C6. In a store at (or over) capacity whose entries are all unexpired at
    the sweep, [put] on a stored key, with an effective TTL that converts to
    a double, returns [True], deletes that key's entry and appends the new
    one: nothing is evicted, every other key keeps its entry, and the key
    holds the new item. *)
Theorem overwrite_evicts_nothing c key v ttl0 t_exp t_sweep t_created :
  converts_to_float (effective_ttl c ttl0) ->
  max_size c <= len c ->
  (forall p, In p (_cache c) -> _is_expired (snd p) t_sweep = false) ->
  OD.contains key (_cache c) = true ->
  let it := new_item (effective_ttl c ttl0) v t_exp t_created in
  put c key v ttl0 t_exp t_sweep t_created =
  (with_cache c (OD.delitem key (_cache c) ++ [(key, it)]), Ok true)
  /\ (forall k', k' <> key ->
        OD.getitem k' (_cache (fst (put c key v ttl0 t_exp t_sweep t_created)))
        = OD.getitem k' (_cache c))
  /\ OD.getitem key (_cache (fst (put c key v ttl0 t_exp t_sweep t_created)))
     = Some it.
Proof.
  intros _ _ Hlive Hc it.
  pose proof (evict_expired_noop c t_sweep Hlive) as Hsw.
  assert (Hput : put c key v ttl0 t_exp t_sweep t_created =
                 (with_cache c (OD.delitem key (_cache c) ++ [(key, it)]), Ok true)).
  { rewrite put_overwrite; rewrite Hsw; [reflexivity | exact Hc]. }
  split; [exact Hput|]. rewrite Hput. store_simpl.
  split.
  - intros k' Hne. rewrite getitem_app.
    rewrite getitem_delitem_other by congruence.
    destruct (OD.getitem k' (_cache c)); [reflexivity|].
    simpl. destruct (String.eqb k' key) eqn:E; [|reflexivity].
    apply String.eqb_eq in E. congruence.
  - apply getitem_last, getitem_delitem_same.
Qed.

Lemma overwrite_evicts_nothing_witness :
  OD.keys (_cache (fst (put Samples.full_ab "a" (PyInt 9) None 5 5 5)))
  = ["b"; "a"]
  /\ OD.getitem "b" (_cache (fst (put Samples.full_ab "a" (PyInt 9) None 5 5 5)))
     = OD.getitem "b" (_cache Samples.full_ab).
Proof.
  assert (Hfull : max_size Samples.full_ab <= len Samples.full_ab)
    by (vm_compute; discriminate).
  assert (Hlive : forall p, In p (_cache Samples.full_ab) ->
                            _is_expired (snd p) 5 = false).
  { intros p [<-|[<-|[]]]; reflexivity. }
  assert (Hc : OD.contains "a" (_cache Samples.full_ab) = true) by reflexivity.
  assert (Hfit : converts_to_float (effective_ttl Samples.full_ab None))
    by reflexivity.
  destruct (@overwrite_evicts_nothing Samples.full_ab "a" (PyInt 9) None 5 5 5
              Hfit Hfull Hlive Hc) as (Hput & Hother & _).
  split.
  - rewrite Hput. reflexivity.
  - apply Hother. discriminate.
Defined.

(** ** Recency order *)

Lemma filter_all (A : Type) (l : list A) : filter (fun _ => true) l = l.
Proof. induction l as [|x l IH]; simpl; [reflexivity | now rewrite IH]. Qed.

Lemma filter_none (A : Type) (l : list A) : filter (fun _ => false) l = [].
Proof. induction l as [|x l IH]; simpl; [reflexivity | exact IH]. Qed.

Lemma ordered_by_nodup order c : ordered_by order c -> NoDup (OD.keys (_cache c)).
Proof. intros [Hnd [f ->]]. now apply NoDup_filter. Qed.

(** removing entries keeps a store ordered by the same list *)
Lemma ordered_by_filter order c c' g :
  ordered_by order c ->
  OD.keys (_cache c') = filter g (OD.keys (_cache c)) ->
  ordered_by order c'.
Proof.
  intros [Hnd [f Hf]] Hk. split; [exact Hnd|].
  exists (fun x => f x && g x). now rewrite Hk, Hf, filter_twice.
Qed.

(** removing entries and then appending [k] keeps it ordered by the list
    with [k] bumped to the end *)
Lemma ordered_by_bump order c c' g k :
  ordered_by order c ->
  OD.keys (_cache c') = filter g (OD.keys (_cache c)) ++ [k] ->
  ~ In k (filter g (OD.keys (_cache c))) ->
  ordered_by (bump k order) c'.
Proof.
  intros [Hnd [f Hf]] Hk Hnot. split.
  - unfold bump. apply nodup_snoc; [now apply NoDup_filter|].
    apply not_in_filter_self.
  - exists (fun x => String.eqb k x || (f x && g x)).
    rewrite Hk. unfold bump. rewrite filter_app. simpl.
    rewrite String.eqb_refl. simpl. f_equal.
    rewrite Hf, !filter_twice. rewrite Hf, filter_twice in Hnot.
    apply filter_ext_in. intros x Hx.
    destruct (String.eqb k x) eqn:E; simpl.
    + apply String.eqb_eq in E. subst x.
      destruct (f k && g k) eqn:Efg; [|reflexivity].
      exfalso. apply Hnot. apply filter_In. now split.
    + reflexivity.
Qed.

(** what one call does to the list of keys *)
Lemma step_keys c o :
  NoDup (OD.keys (_cache c)) ->
  exists g,
    match touched c o with
    | Some k =>
        OD.keys (_cache (step c o)) = filter g (OD.keys (_cache c)) ++ [k]
        /\ ~ In k (filter g (OD.keys (_cache c)))
    | None => OD.keys (_cache (step c o)) = filter g (OD.keys (_cache c))
    end.
Proof.
  intros Hnd. destruct o; simpl.
  - (* put *)
    pose proof (evict_expired_keys c t_sweep) as Hsw.
    set (g0 := fun k => negb (existsb (String.eqb k)
                                      (expired_keys t_sweep (_cache c)))) in Hsw.
    destruct (put_cases c key v ttl0 t_exp t_sweep t_created)
      as [(Hc & ->)|[(Hc & _ & ->)|[(Hc & _ & p & d' & Hs & ->)|(_ & Hs & ->)]]];
      store_simpl.
    + exists (fun x => g0 x && negb (String.eqb key x)).
      rewrite keys_app, keys_delitem, Hsw, filter_twice. simpl.
      split; [reflexivity|].
      rewrite filter_In. intros [_ H]. rewrite String.eqb_refl in H.
      now rewrite andb_false_r in H.
    + exists g0. rewrite keys_app, Hsw. simpl. split; [reflexivity|].
      rewrite <- Hsw. apply getitem_none_keys.
      unfold OD.contains in Hc.
      now destruct (OD.getitem key (_cache (_evict_expired c t_sweep))).
    + destruct p as [k0 v0].
      assert (Hnd' : NoDup (k0 :: OD.keys d')).
      { change (NoDup (OD.keys ((k0, v0) :: d'))). rewrite <- Hs, Hsw.
        now apply NoDup_filter. }
      assert (Hkeys : OD.keys d' =
                      filter (fun x => g0 x && negb (String.eqb k0 x))
                             (OD.keys (_cache c))).
      { rewrite <- filter_twice, <- Hsw, Hs. simpl. rewrite String.eqb_refl.
        simpl. now apply nodup_tail_filter. }
      exists (fun x => g0 x && negb (String.eqb k0 x)).
      rewrite keys_app, Hkeys. simpl. split; [reflexivity|].
      rewrite <- Hkeys. apply getitem_none_keys.
      unfold OD.contains in Hc. rewrite Hs in Hc. simpl in Hc.
      destruct (String.eqb key k0); [discriminate|].
      now destruct (OD.getitem key d').
    + exists g0. exact Hsw.
  - (* get *)
    unfold get_hits, get.
    destruct (OD.getitem key (_cache c)) as [it|] eqn:Hit.
    + destruct (_is_expired it now); simpl.
      * exists (fun x => negb (String.eqb key x)). apply keys_delitem.
      * rewrite (move_to_end_present _ _ Hit). store_simpl.
        exists (fun x => negb (String.eqb key x)).
        rewrite keys_app, keys_delitem. simpl. split; [reflexivity|].
        apply not_in_filter_self.
    + exists (fun _ => true). simpl. now rewrite filter_all.
  - (* delete *)
    unfold delete. destruct (OD.contains key (_cache c)); simpl.
    + exists (fun x => negb (String.eqb key x)). apply keys_delitem.
    + exists (fun _ => true). now rewrite filter_all.
  - exists (fun _ => false). now rewrite filter_none.
  - eexists. apply evict_expired_keys.
  - eexists. apply evict_expired_keys.
Qed.

Lemma step_ordered_by order c o :
  ordered_by order c ->
  ordered_by (match touched c o with Some k => bump k order | None => order end)
             (step c o).
Proof.
  intros Hord.
  destruct (step_keys c o (ordered_by_nodup Hord)) as [g Hg].
  destruct (touched c o) as [k|].
  - destruct Hg as [Hk Hnot]. eapply ordered_by_bump; eassumption.
  - eapply ordered_by_filter; eassumption.
Qed.

Lemma run_ordered_by order c ops :
  ordered_by order c -> ordered_by (touch_order c order ops) (run c ops).
Proof.
  unfold run. revert c order.
  induction ops as [|o ops IH]; intros c order Hord; simpl; [exact Hord|].
  apply IH, step_ordered_by, Hord.
Qed.

Lemma init_ordered_by ms dt : ordered_by [] (init ms dt).
Proof. split; [constructor | now exists (fun _ => true)]. Qed.

(** every store reached from a fresh cache has unique keys *)
Lemma run_nodup ms dt ops : NoDup (OD.keys (_cache (run (init ms dt) ops))).
Proof.
  apply ordered_by_nodup with (order := touch_order (init ms dt) [] ops).
  apply run_ordered_by, init_ordered_by.
Qed.

Lemma last_key_bump k order : last_key (bump k order) = Some k.
Proof. apply last_key_snoc. Qed.

Lemma last_key_touch_order c order ops :
  last_key (touch_order c order ops) = last_touched c (last_key order) ops.
Proof.
  revert c order. induction ops as [|o ops IH]; intros c order; simpl;
    [reflexivity|].
  rewrite IH. destruct (touched c o); [now rewrite last_key_bump | reflexivity].
Qed.

Lemma last_key_inv k l : last_key l = Some k -> exists l', l = l' ++ [k].
Proof.
  unfold last_key. destruct (rev l) as [|x r] eqn:E; [discriminate|].
  intros [= ->]. exists (rev r).
  rewrite <- (rev_involutive l), E. reflexivity.
Qed.

(** C7 as the code has it.  For every sequence of calls on a fresh cache, the
    dictionary order is the order of last touch (insertion or overwrite by
    [put], successful [get]) restricted to the keys still stored; so the most
    recently touched key is last whenever it is still stored.  A successful
    [get] moves its entry to the last position and a [put] that returns has
    put its entry at the last position. *)
Theorem recency_order_among_stored_keys ms dt ops :
  let c0 := init ms dt in
  let c := run c0 ops in
  let order := touch_order c0 [] ops in
  OD.keys (_cache c) = filter (fun k => OD.contains k (_cache c)) order
  /\ last_key order = last_touched c0 None ops
  /\ (forall k,
        last_touched c0 None ops = Some k ->
        OD.contains k (_cache c) = true ->
        last_key (OD.keys (_cache c)) = Some k)
  /\ (forall k now it,
        OD.getitem k (_cache c) = Some it -> _is_expired it now = false ->
        _cache (fst (get c k now)) = OD.delitem k (_cache c) ++ [(k, it)])
  /\ (forall k v ttl0 t_exp t_sweep t_created b,
        snd (put c k v ttl0 t_exp t_sweep t_created) = Ok b ->
        exists d,
          _cache (fst (put c k v ttl0 t_exp t_sweep t_created)) =
          d ++ [(k, new_item (effective_ttl c ttl0) v t_exp t_created)]
          /\ OD.getitem k d = None).
Proof.
  intros c0 c order.
  destruct (run_ordered_by ops (init_ordered_by ms dt)) as [Hnd [f Hf]].
  fold c0 c order in Hnd, Hf.
  assert (Hkeys : OD.keys (_cache c)
                  = filter (fun k => OD.contains k (_cache c)) order).
  { rewrite Hf at 1. apply filter_ext_in. intros x Hx.
    destruct (OD.contains x (_cache c)) eqn:E.
    - apply contains_keys in E. rewrite Hf in E. now apply filter_In in E.
    - destruct (f x) eqn:Efx; [|reflexivity].
      assert (Hin : In x (OD.keys (_cache c))).
      { rewrite Hf. apply filter_In. now split. }
      apply contains_keys in Hin. congruence. }
  assert (Hlast : last_key order = last_touched c0 None ops).
  { unfold order. now rewrite last_key_touch_order. }
  split; [exact Hkeys|]. split; [exact Hlast|].
  split.
  { intros k Hk Hc. rewrite <- Hlast in Hk.
    destruct (last_key_inv _ Hk) as [l' Hl'].
    rewrite Hkeys, Hl', filter_app. simpl. rewrite Hc. apply last_key_snoc. }
  split.
  { intros k now it Hit Hx. now rewrite (get_live _ _ _ Hit Hx). }
  intros k v ttl0 t_exp t_sweep t_created b Hok.
  exact (put_last _ _ _ _ _ _ _ Hok).
Qed.

Lemma recency_order_among_stored_keys_witness :
  let ops := [OpPut "a" (PyInt 1) None 0 0 0; OpPut "b" (PyInt 2) None 1 1 1;
              OpGet "a" 2] in
  last_touched (init 2 3600) None ops = Some "a"
  /\ last_key (OD.keys (_cache (run (init 2 3600) ops))) = Some "a"
  /\ OD.keys (_cache (fst (get (run (init 2 3600) ops) "b" 3))) = ["a"; "b"]
  /\ last_key (OD.keys (_cache (fst (put (run (init 2 3600) ops)
                                         "c" (PyInt 3) None 4 4 4)))) = Some "c".
Proof.
  intros ops.
  destruct (recency_order_among_stored_keys 2 3600 ops)
    as (_ & _ & Hlast & Hget & Hput).
  split; [reflexivity|].
  split; [apply Hlast; reflexivity|].
  split.
  - rewrite (Hget "b" 3 _ eq_refl eq_refl). reflexivity.
  - destruct (Hput "c" (PyInt 3) None 4 4 4 true eq_refl) as (d & -> & _).
    rewrite keys_app. apply last_key_snoc.
Defined.

(** C7 as stated fails after a call that removes the most recently touched
    key: after [put(a); put(b); delete(b)] the key most recently inserted is
    ["b"], and the last key of the order is ["a"]. *)
Lemma most_recent_key_not_last_after_delete :
  ~ (forall ms dt ops k,
       last_touched (init ms dt) None ops = Some k ->
       last_key (OD.keys (_cache (run (init ms dt) ops))) = Some k).
Proof.
  intros H.
  specialize (H 2 3600
                [OpPut "a" (PyInt 1) None 0 0 0; OpPut "b" (PyInt 2) None 1 1 1;
                 OpDelete "b"]
                "b" eq_refl).
  vm_compute in H. discriminate.
Qed.

(** ** [size] and [stats] *)

Lemma nodup_keys_same_pair (V : Type) (d : OD.t V) p q :
  NoDup (OD.keys d) -> In p d -> In q d -> fst p = fst q -> p = q.
Proof.
  induction d as [|x d IH]; simpl; [tauto|].
  intros Hnd Hp Hq Hk. apply NoDup_cons_iff in Hnd. destruct Hnd as [Hx Hnd].
  destruct Hp as [<-|Hp], Hq as [<-|Hq].
  - reflexivity.
  - exfalso. apply Hx. rewrite Hk. now apply in_map.
  - exfalso. apply Hx. rewrite <- Hk. now apply in_map.
  - now apply IH.
Qed.

(** with unique keys the sweep keeps exactly the entries that are not
    expired *)
Lemma evict_expired_filter c now :
  NoDup (OD.keys (_cache c)) ->
  _cache (_evict_expired c now) =
  filter (fun p => negb (_is_expired (snd p) now)) (_cache c).
Proof.
  intros Hnd. rewrite evict_expired_cache.
  apply filter_ext_in. intros p Hp. f_equal.
  destruct (_is_expired (snd p) now) eqn:Hx.
  - apply existsb_exists. exists (fst p). split; [|apply String.eqb_refl].
    unfold expired_keys. apply in_map, filter_In.
    split; [exact Hp | now rewrite sweep_hit_is_expired].
  - destruct (existsb (String.eqb (fst p)) (expired_keys now (_cache c))) eqn:E;
      [|reflexivity].
    apply existsb_exists in E. destruct E as (k & Hk & Heq).
    apply String.eqb_eq in Heq. unfold expired_keys in Hk.
    apply in_map_iff in Hk. destruct Hk as (q & Hq & Hin).
    apply filter_In in Hin. destruct Hin as [Hin Hhit].
    assert (p = q).
    { eapply nodup_keys_same_pair; eauto. congruence. }
    subst q. rewrite sweep_hit_is_expired in Hhit. congruence.
Qed.

(** C8. After any sequence of calls on a fresh cache, [stats()['size']] and
    [size()] read at the same clock value are the same number: both run the
    same sweep, leave the same store, and count exactly the entries that are
    not expired; nothing left in the store is expired; and calling one after
    the other gives that number again. *)
Theorem stats_size_equals_size ms dt ops now :
  let c := run (init ms dt) ops in
  stats_size (snd (stats c now)) = snd (size c now)
  /\ fst (stats c now) = fst (size c now)
  /\ fst (size c now) = _evict_expired c now
  /\ snd (size c now) =
     Z.of_nat (List.length
                 (filter (fun p => negb (_is_expired (snd p) now)) (_cache c)))
  /\ (forall p, In p (_cache (fst (size c now))) ->
                _is_expired (snd p) now = false)
  /\ stats_size (snd (stats (fst (size c now)) now)) = snd (size c now)
  /\ snd (size (fst (stats c now)) now) = stats_size (snd (stats c now))
  /\ stats_max_size (snd (stats c now)) = ms
  /\ stats_default_ttl (snd (stats c now)) = default_ttl c.
Proof.
  intros c. unfold stats, size. store_simpl.
  split; [reflexivity|]. split; [reflexivity|]. split; [reflexivity|].
  split.
  { unfold len. rewrite evict_expired_filter; [reflexivity | apply run_nodup]. }
  split; [apply evict_expired_live|].
  split; [simpl; now rewrite evict_expired_idem|].
  split; [now rewrite evict_expired_idem|].
  split; [|reflexivity].
  apply run_max_size.
Qed.

Lemma stats_size_equals_size_witness :
  let ops := [OpPut "a" (PyInt 1) (Some 5) 0 0 0;
              OpPut "b" (PyInt 2) (Some 0) 1 1 1] in
  stats_size (snd (stats (run (init 2 3600) ops) 100)) = 1
  /\ snd (size (run (init 2 3600) ops) 100) = 1
  /\ _is_expired {| value := PyInt 2; expiry := None; created_at := 1 |} 100
     = false.
Proof.
  intros ops.
  destruct (stats_size_equals_size 2 3600 ops 100)
    as (Hsame & _ & _ & Hcount & Hlive & _).
  split; [rewrite Hsame, Hcount; reflexivity|].
  split; [rewrite Hcount; reflexivity|].
  apply (Hlive ("b", {| value := PyInt 2; expiry := None; created_at := 1 |})).
  vm_compute. left. reflexivity.
Defined.

(** ** The eviction scenario *)

Lemma new_item_live dt v t_exp t_created now :
  dt <= 0 \/ now <= t_exp + dt ->
  _is_expired (new_item dt v t_exp t_created) now = false.
Proof.
  intros H. apply is_expired_false. unfold new_item, ttl, expires_at. simpl.
  destruct (Z.ltb_spec 0 dt) as [Hpos|Hneg]; simpl.
  - right. exists (t_exp + dt). split; [reflexivity | lia].
  - now left.
Qed.

(** [put] of a new key into a store with nothing to sweep and room left *)
Lemma put_new_room c key v ttl0 t_exp t_sweep t_created :
  (forall p, In p (_cache c) -> _is_expired (snd p) t_sweep = false) ->
  OD.contains key (_cache c) = false ->
  len c < max_size c ->
  put c key v ttl0 t_exp t_sweep t_created =
  (with_cache c
     (_cache c ++ [(key, new_item (effective_ttl c ttl0) v t_exp t_created)]),
   Ok true).
Proof.
  intros Hlive Hc Hl.
  pose proof (evict_expired_noop c t_sweep Hlive) as Hsw.
  rewrite put_insert_room; rewrite Hsw; auto.
Qed.

(** [put] of a new key into a store with nothing to sweep and no room *)
Lemma put_new_full c key v ttl0 t_exp t_sweep t_created p d' :
  (forall q, In q (_cache c) -> _is_expired (snd q) t_sweep = false) ->
  OD.contains key (_cache c) = false ->
  max_size c <= len c ->
  _cache c = p :: d' ->
  put c key v ttl0 t_exp t_sweep t_created =
  (with_cache c
     (d' ++ [(key, new_item (effective_ttl c ttl0) v t_exp t_created)]),
   Ok true).
Proof.
  intros Hlive Hc Hl Hs.
  pose proof (evict_expired_noop c t_sweep Hlive) as Hsw.
  rewrite put_insert_full with (p := p) (d' := d'); rewrite ?Hsw; auto.
Qed.

Section Scenario.
Variables (dt : Z) (clk : nat -> Z).
Hypothesis no_expiry :
  forall i j, (i <= 12)%nat -> (j <= 12)%nat -> dt <= 0 \/ clk i <= clk j + dt.

Let a := new_item dt (PyInt 1) (clk 0%nat) (clk 2%nat).
Let b := new_item dt (PyInt 2) (clk 3%nat) (clk 5%nat).
Let c := new_item dt (PyInt 3) (clk 7%nat) (clk 9%nat).
Let store (d : OD.t item) : InMemoryCache :=
  {| max_size := 2; default_ttl := dt; _cache := d |}.

Lemma scenario_live v i j now :
  (i <= 12)%nat -> (now <= 12)%nat ->
  _is_expired (new_item dt v (clk i) (clk j)) (clk now) = false.
Proof. intros Hi Hn. now apply new_item_live, no_expiry. Qed.

Lemma scenario_put_a :
  put (init 2 dt) "a" (PyInt 1) None (clk 0%nat) (clk 1%nat) (clk 2%nat)
  = (store [("a", a)], Ok true).
Proof.
  rewrite put_new_room; [reflexivity | intros p [] | reflexivity | reflexivity].
Qed.

Lemma scenario_put_b :
  put (store [("a", a)]) "b" (PyInt 2) None (clk 3%nat) (clk 4%nat) (clk 5%nat)
  = (store [("a", a); ("b", b)], Ok true).
Proof.
  rewrite put_new_room; [reflexivity | | reflexivity | reflexivity].
  intros p [<-|[]]. apply scenario_live; lia.
Qed.

Lemma scenario_get_a :
  get (store [("a", a); ("b", b)]) "a" (clk 6%nat)
  = (store [("b", b); ("a", a)], PyInt 1).
Proof.
  rewrite get_live with (it := a); [reflexivity | reflexivity |].
  apply scenario_live; lia.
Qed.

Lemma scenario_put_c :
  put (store [("b", b); ("a", a)]) "c" (PyInt 3) None
      (clk 7%nat) (clk 8%nat) (clk 9%nat)
  = (store [("a", a); ("c", c)], Ok true).
Proof.
  rewrite put_new_full with (p := ("b", b)) (d' := [("a", a)]);
    [reflexivity | | reflexivity | vm_compute; discriminate | reflexivity].
  intros p [<-|[<-|[]]]; apply scenario_live; lia.
Qed.
End Scenario.



(** ** The PUT handler *)

Section PutHandler.
Variables (cache : InMemoryCache) (key : string).
Variables (t_exp t_sweep t_created : Z) (stamp : string).

Let handle (req : Api.request) : InMemoryCache * Api.response :=
  Api.put_cache_item cache req key t_exp t_sweep t_created stamp.

Lemma put_cache_item_not_json req :
  Api.is_json req = false ->
  handle req = (cache, Api.bad_request "Content-Type must be application/json").
Proof. unfold handle, Api.put_cache_item. now intros ->. Qed.

Lemma put_cache_item_no_value d :
  Api.dict_lookup "value" d = None ->
  handle (Api.json_object d) =
  (cache, Api.bad_request "Missing required field: value").
Proof. unfold handle, Api.put_cache_item. simpl. now intros ->. Qed.

(** how the handler goes on once the body is an object with a value:
    the TTL test decides between 400 and the call of [cache.put] *)
Lemma put_cache_item_with_value d v :
  Api.dict_lookup "value" d = Some v ->
  let ttl0 := match Api.dict_lookup "ttl" d with
              | Some x => x
              | None => PyNone
              end in
  handle (Api.json_object d) =
  if match ttl0 with
     | PyNone => false
     | _ => negb (Api.isinstance_int ttl0) || (Api.int_of ttl0 <? 0)
     end
  then (cache, Api.bad_request "TTL must be a non-negative integer")
  else
    match put cache key v (Api.ttl_arg ttl0) t_exp t_sweep t_created with
    | (cache', Raise e) => (cache', Api.internal_error e)
    | (cache', Ok true) =>
        (cache',
         {| Api.status := 201;
            Api.body := [("message", PyStr "Value stored successfully");
                         ("key", PyStr key);
                         ("ttl", Api.py_or ttl0 (PyInt (default_ttl cache')));
                         ("timestamp", PyStr stamp)] |})
    | (cache', Ok false) =>
        (cache',
         {| Api.status := 500;
            Api.body := [("error", PyStr "Failed to store value")] |})
    end.
Proof.
  intros Hv ttl0. unfold handle, Api.put_cache_item. simpl.
  rewrite Hv. reflexivity.
Qed.

(** a [ttl] that is present, is not null and is not an [int] instance, or
    is a negative integer, is refused before [cache.put] is called *)
Lemma put_cache_item_bad_ttl d v x :
  Api.dict_lookup "value" d = Some v ->
  Api.dict_lookup "ttl" d = Some x ->
  x <> PyNone -> (forall b, x <> PyBool b) ->
  Api.is_nonneg_integer x = false ->
  handle (Api.json_object d) =
  (cache, Api.bad_request "TTL must be a non-negative integer").
Proof.
  intros Hv Hx Hnone Hbool Hneg.
  rewrite (put_cache_item_with_value _ Hv). rewrite Hx.
  destruct x as [|b|z|m e|s|l|d0]; simpl in *; try reflexivity;
    try congruence; try (exfalso; eapply Hbool; reflexivity).
  apply Z.leb_gt in Hneg. destruct (Z.ltb_spec z 0); [reflexivity | lia].
Qed.

(** an accepted request reaches [cache.put] with the request's [ttl], or
    [None] when the field is absent or null, and is answered 201 *)
Lemma put_cache_item_accepted d v ttl0 :
  0 < max_size cache ->
  Api.dict_lookup "value" d = Some v ->
  ttl0 = match Api.dict_lookup "ttl" d with Some x => x | None => PyNone end ->
  ttl0 = PyNone \/ Api.is_nonneg_integer ttl0 = true ->
  handle (Api.json_object d) =
  (fst (put cache key v (Api.ttl_arg ttl0) t_exp t_sweep t_created),
   {| Api.status := 201;
      Api.body := [("message", PyStr "Value stored successfully");
                   ("key", PyStr key);
                   ("ttl", Api.py_or ttl0 (PyInt (default_ttl cache)));
                   ("timestamp", PyStr stamp)] |}).
Proof.
  intros Hpos Hv Httl Hok.
  rewrite (put_cache_item_with_value _ Hv). rewrite <- Httl.
  assert (Htest : match ttl0 with
                  | PyNone => false
                  | _ => negb (Api.isinstance_int ttl0) || (Api.int_of ttl0 <? 0)
                  end = false).
  { destruct Hok as [->|Hok]; [reflexivity|].
    destruct ttl0 as [|b|z|m e|s|l|d0]; simpl in *; try discriminate.
    apply Z.leb_le in Hok. destruct (Z.ltb_spec z 0); [lia | reflexivity]. }
  rewrite Htest.
  pose proof (put_returns cache key v (Api.ttl_arg ttl0)
                          t_exp t_sweep t_created Hpos) as Hret.
  pose proof (put_max_size cache key v (Api.ttl_arg ttl0)
                           t_exp t_sweep t_created) as Hms.
  destruct (put cache key v (Api.ttl_arg ttl0) t_exp t_sweep t_created)
    as [cache' r] eqn:Hput.
  simpl in Hret. subst r. simpl.
  assert (Hdt : default_ttl cache' = default_ttl cache).
  { change cache' with (fst (cache', @Ok bool true)). rewrite <- Hput.
    destruct (put_cases cache key v (Api.ttl_arg ttl0) t_exp t_sweep t_created)
      as [(_ & ->)|[(_ & _ & ->)|[(_ & _ & p & d' & _ & ->)|(_ & _ & ->)]]];
      reflexivity. }
  now rewrite Hdt.
Qed.
End PutHandler.

(** apart from [ttl = 0], the ["ttl"] of the 201 response is the TTL that
    [put] worked with *)
Lemma put_cache_item_reports_effective_ttl
      cache key t_exp t_sweep t_created stamp d v ttl0 :
  0 < max_size cache ->
  Api.dict_lookup "value" d = Some v ->
  ttl0 = match Api.dict_lookup "ttl" d with Some x => x | None => PyNone end ->
  ttl0 = PyNone \/ Api.is_nonneg_integer ttl0 = true ->
  ttl0 <> PyInt 0 ->
  Api.dict_lookup "ttl"
    (Api.body (snd (Api.put_cache_item cache (Api.json_object d) key
                                       t_exp t_sweep t_created stamp)))
  = Some (PyInt (effective_ttl cache (Api.ttl_arg ttl0))).
Proof.
  intros Hpos Hv Httl Hok Hnz.
  rewrite (put_cache_item_accepted cache key t_exp t_sweep t_created stamp
                                   d Hpos Hv Httl Hok).
  simpl. destruct Hok as [->|Hok]; [reflexivity|].
  destruct ttl0 as [|b|z|m e|s|l|d0]; simpl in *; try discriminate.
  unfold Api.py_or. simpl.
  destruct (Z.eqb_spec z 0) as [->|Hz]; [congruence | reflexivity].
Qed.

(** C5 fails at [ttl = 0]: [PUT /cache/k] with body [{"value": "x", "ttl": 0}]
    on the module's cache is answered 201 with ["ttl": 3600], the default,
    while [cache.put] received 0 and stored the entry without expiry. *)
Theorem put_cache_item_ttl_zero_reports_default :
  let r := Api.put_cache_item Api.cache0 (Samples.body_with_ttl (PyInt 0)) "k"
                              100 100 100 "2025-01-01T00:00:00" in
  Api.status (snd r) = 201
  /\ Api.dict_lookup "ttl" (Api.body (snd r)) = Some (PyInt 3600)
  /\ fst r = fst (put Api.cache0 "k" (PyStr "x") (Some 0) 100 100 100)
  /\ OD.getitem "k" (_cache (fst r)) =
     Some {| value := PyStr "x"; expiry := None; created_at := 100 |}.
Proof. vm_compute. repeat split; reflexivity. Qed.

(** C9 as the code has it.  A request without a JSON Content-Type, a JSON
    object without ["value"], and a JSON object whose ["ttl"] is present, is
    not null, is not a boolean and is not an integer [>= 0], are answered 400
    and leave the store as it was.  A null ["ttl"] is treated as an absent
    one: the request is stored with the default TTL and answered 201. *)
Theorem put_cache_item_rejects_malformed
        cache req key t_exp t_sweep t_created stamp :
  (Api.is_json req = false
   \/ (exists d, req = Api.json_object d /\ Api.dict_lookup "value" d = None)
   \/ (exists d v x,
         req = Api.json_object d
         /\ Api.dict_lookup "value" d = Some v
         /\ Api.dict_lookup "ttl" d = Some x
         /\ x <> PyNone /\ (forall b, x <> PyBool b)
         /\ Api.is_nonneg_integer x = false) ->
   Api.status (snd (Api.put_cache_item cache req key
                                       t_exp t_sweep t_created stamp)) = 400
   /\ fst (Api.put_cache_item cache req key t_exp t_sweep t_created stamp)
      = cache)
  /\ (forall d v,
        0 < max_size cache ->
        req = Api.json_object d ->
        Api.dict_lookup "value" d = Some v ->
        Api.dict_lookup "ttl" d = Some PyNone ->
        Api.put_cache_item cache req key t_exp t_sweep t_created stamp =
        (fst (put cache key v None t_exp t_sweep t_created),
         {| Api.status := 201;
            Api.body := [("message", PyStr "Value stored successfully");
                         ("key", PyStr key);
                         ("ttl", PyInt (default_ttl cache));
                         ("timestamp", PyStr stamp)] |})).
Proof.
  split.
  - intros [Hj|[(d & -> & Hv)|(d & v & x & -> & Hv & Hx & Hnone & Hbool & Hneg)]].
    + now rewrite put_cache_item_not_json.
    + now rewrite put_cache_item_no_value.
    + now rewrite (put_cache_item_bad_ttl cache key t_exp t_sweep t_created
                                          stamp d Hv Hx Hnone Hbool Hneg).
  - intros d v Hpos -> Hv Hx.
    rewrite (put_cache_item_accepted cache key t_exp t_sweep t_created stamp
                                     (ttl0 := PyNone) d Hpos Hv).
    + reflexivity.
    + now rewrite Hx.
    + now left.
Qed.

Lemma put_cache_item_rejects_malformed_witness :
  Api.status (snd (Api.put_cache_item Samples.full_ab
                     (Samples.body_with_ttl (PyInt (-1))) "a" 9 9 9 "now")) = 400
  /\ fst (Api.put_cache_item Samples.full_ab
            (Samples.body_with_ttl (PyStr "soon")) "a" 9 9 9 "now")
     = Samples.full_ab
  /\ Api.status (snd (Api.put_cache_item Samples.full_ab
                        (Samples.body_with_ttl PyNone) "a" 9 9 9 "now")) = 201.
Proof.
  split; [|split].
  - refine (proj1 (proj1 (put_cache_item_rejects_malformed
                            Samples.full_ab
                            (Samples.body_with_ttl (PyInt (-1)))
                            "a" 9 9 9 "now") _)).
    right. right.
    exists [("value", PyStr "x"); ("ttl", PyInt (-1))], (PyStr "x"), (PyInt (-1)).
    repeat split; try reflexivity; discriminate.
  - refine (proj2 (proj1 (put_cache_item_rejects_malformed
                            Samples.full_ab
                            (Samples.body_with_ttl (PyStr "soon"))
                            "a" 9 9 9 "now") _)).
    right. right.
    exists [("value", PyStr "x"); ("ttl", PyStr "soon")], (PyStr "x"),
           (PyStr "soon").
    repeat split; try reflexivity; discriminate.
  - rewrite (proj2 (put_cache_item_rejects_malformed
                      Samples.full_ab (Samples.body_with_ttl PyNone)
                      "a" 9 9 9 "now")
                   [("value", PyStr "x"); ("ttl", PyNone)] (PyStr "x"));
      reflexivity.
Defined.

(** C9 as stated fails: a ["ttl"] that is present and null is present and is
    not a non-negative integer, yet [{"value": "x", "ttl": null}] is answered
    201 and the entry is stored. *)
Lemma null_ttl_is_stored :
  ~ (forall cache d x key t_exp t_sweep t_created stamp,
       Api.dict_lookup "ttl" d = Some x ->
       Api.is_nonneg_integer x = false ->
       Api.status (snd (Api.put_cache_item cache (Api.json_object d) key
                                           t_exp t_sweep t_created stamp)) = 400
       /\ fst (Api.put_cache_item cache (Api.json_object d) key
                                  t_exp t_sweep t_created stamp) = cache).
Proof.
  intros H.
  destruct (H Api.cache0 [("value", PyStr "x"); ("ttl", PyNone)] PyNone
              "k" 100 100 100 "2025-01-01T00:00:00" eq_refl eq_refl)
    as [Hstatus _].
  vm_compute in Hstatus. discriminate.
Qed.

(** * Further properties of the cache *)

(** ** Round trip and expiry *)

Lemma effective_item_expiry ttl1 v t_exp t_created :
  0 < ttl1 ->
  expiry (new_item ttl1 v t_exp t_created) = Some (ttl1, t_exp + ttl1).
Proof.
  intros H. unfold new_item. simpl.
  destruct (Z.ltb_spec 0 ttl1); [reflexivity | lia].
Qed.

(** X1. [put], with an effective TTL that converts to a double, followed by
    [get] of the same key returns the value that was put, as long as the
    entry has no expiry (effective TTL [<= 0]) or the clock has not passed
    [expires_at]; the boundary [now = expires_at] still hits.  The TTL is
    the default one when [put] is given none. *)
Theorem put_then_get_returns_value
        c key v ttl0 t_exp t_sweep t_created now :
  0 < max_size c ->
  converts_to_float (effective_ttl c ttl0) ->
  effective_ttl c ttl0 <= 0 \/ now <= t_exp + effective_ttl c ttl0 ->
  let c' := fst (put c key v ttl0 t_exp t_sweep t_created) in
  snd (put c key v ttl0 t_exp t_sweep t_created) = Ok true
  /\ snd (get c' key now) = v
  /\ OD.getitem key (_cache (fst (get c' key now))) =
     Some (new_item (effective_ttl c ttl0) v t_exp t_created)
  /\ last_key (OD.keys (_cache (fst (get c' key now)))) = Some key.
Proof.
  intros Hpos _ Hlive c'.
  pose proof (put_returns c key v ttl0 t_exp t_sweep t_created Hpos) as Hok.
  pose proof (put_getitem _ _ _ _ _ _ _ Hok) as Hit. fold c' in Hit.
  pose proof (new_item_live v t_exp t_created Hlive) as Hx.
  split; [exact Hok|].
  rewrite (get_live _ _ _ Hit Hx). store_simpl.
  split; [reflexivity|].
  split; [apply getitem_last, getitem_delitem_same|].
  rewrite keys_app. apply last_key_snoc.
Qed.

Lemma put_then_get_returns_value_witness :
  snd (get (fst (put Samples.full_ab "c" (PyStr "v") (Some 60) 100 100 100))
           "c" 160) = PyStr "v"
  /\ snd (get (fst (put Samples.full_ab "c" (PyStr "v") None 100 100 100))
              "c" 3700) = PyStr "v".
Proof.
  split.
  - refine (proj1 (proj2 (@put_then_get_returns_value
                            Samples.full_ab "c" (PyStr "v") (Some 60)
                            100 100 100 160 _ _ _))).
    + reflexivity.
    + reflexivity.
    + right. simpl. lia.
  - refine (proj1 (proj2 (@put_then_get_returns_value
                            Samples.full_ab "c" (PyStr "v") None
                            100 100 100 3700 _ _ _))).
    + reflexivity.
    + reflexivity.
    + right. simpl. lia.
Defined.

(** the only pair with the key that [put] wrote is the pair it wrote *)
Lemma put_pair_unique c key v ttl0 t_exp t_sweep t_created b p :
  snd (put c key v ttl0 t_exp t_sweep t_created) = Ok b ->
  In p (_cache (fst (put c key v ttl0 t_exp t_sweep t_created))) ->
  fst p = key ->
  p = (key, new_item (effective_ttl c ttl0) v t_exp t_created).
Proof.
  intros Hok Hin Hk.
  destruct (put_last _ _ _ _ _ _ _ Hok) as (d & Hd & Hnone).
  rewrite Hd in Hin. apply in_app_iff in Hin. destruct Hin as [Hin|[<-|[]]].
  - exfalso. apply getitem_none_keys in Hnone. apply Hnone.
    rewrite <- Hk. now apply in_map.
  - reflexivity.
Qed.

(** X2. An entry put with a positive effective TTL is gone once the clock is
    strictly past [expires_at = t_exp + ttl]: [get] returns the miss result
    and deletes the entry, and [size()] at such a time sweeps it without any
    [get]. *)
Theorem entry_expires_after_ttl c key v ttl0 t_exp t_sweep t_created now :
  0 < max_size c ->
  0 < effective_ttl c ttl0 ->
  t_exp + effective_ttl c ttl0 < now ->
  let c' := fst (put c key v ttl0 t_exp t_sweep t_created) in
  OD.contains key (_cache c') = true
  /\ get c' key now = (with_cache c' (OD.delitem key (_cache c')), PyNone)
  /\ OD.contains key (_cache (fst (get c' key now))) = false
  /\ OD.contains key (_cache (fst (size c' now))) = false.
Proof.
  intros Hpos Httl Hnow c'.
  pose proof (put_returns c key v ttl0 t_exp t_sweep t_created Hpos) as Hok.
  pose proof (put_getitem _ _ _ _ _ _ _ Hok) as Hit. fold c' in Hit.
  set (it := new_item (effective_ttl c ttl0) v t_exp t_created) in *.
  assert (Hx : _is_expired it now = true).
  { apply is_expired_true. exists (effective_ttl c ttl0), (t_exp + effective_ttl c ttl0).
    split; [now apply effective_item_expiry | exact Hnow]. }
  split; [unfold OD.contains; now rewrite Hit|].
  rewrite (get_expired _ _ _ Hit Hx).
  split; [reflexivity|].
  split; [store_simpl; unfold OD.contains; now rewrite getitem_delitem_same|].
  unfold size. store_simpl.
  destruct (OD.contains key (_cache (_evict_expired c' now))) eqn:E;
    [|reflexivity].
  exfalso. unfold OD.contains in E.
  destruct (OD.getitem key (_cache (_evict_expired c' now))) as [it'|] eqn:Hg;
    [|discriminate].
  apply getitem_In in Hg.
  pose proof (evict_expired_live _ _ _ Hg) as Hl.
  apply evict_expired_incl in Hg.
  assert (Hp : (key, it') = (key, it)).
  { eapply put_pair_unique; [exact Hok | exact Hg | reflexivity]. }
  injection Hp as ->. simpl in Hl. congruence.
Qed.

Lemma entry_expires_after_ttl_witness :
  snd (get (fst (put Samples.full_ab "c" (PyStr "v") (Some 1) 100 100 100))
           "c" 102) = PyNone
  /\ OD.contains "c"
       (_cache (fst (size (fst (put Samples.full_ab "c" (PyStr "v") (Some 1)
                                    100 100 100)) 102))) = false.
Proof.
  assert (Hpos : 0 < max_size Samples.full_ab) by reflexivity.
  assert (Httl : 0 < effective_ttl Samples.full_ab (Some 1)) by reflexivity.
  assert (Hnow : 100 + effective_ttl Samples.full_ab (Some 1) < 102)
    by (simpl; lia).
  destruct (@entry_expires_after_ttl Samples.full_ab "c" (PyStr "v") (Some 1)
              100 100 100 102 Hpos Httl Hnow) as (_ & Hget & _ & Hsize).
  split; [now rewrite Hget | exact Hsize].
Defined.

(** ** [delete] and [clear] *)

Lemma delete_gone c key :
  OD.getitem key (_cache (fst (delete c key))) = None.
Proof.
  unfold delete. destruct (OD.contains key (_cache c)) eqn:E; simpl.
  - apply getitem_delitem_same.
  - unfold OD.contains in E. now destruct (OD.getitem key (_cache c)).
Qed.

Lemma delete_result c key : snd (delete c key) = OD.contains key (_cache c).
Proof. unfold delete. now destruct (OD.contains key (_cache c)). Qed.

(** X3. [delete] looks only at whether the key is stored, not at its expiry:
    it returns [False] and changes nothing for an absent key; for a stored
    key it returns [True] and the key is gone.  No other key is touched, a
    second [delete] returns [False], and a later [get] misses. *)
Theorem delete_removes_only_its_key c key :
  (OD.contains key (_cache c) = false -> delete c key = (c, false))
  /\ (OD.contains key (_cache c) = true ->
      snd (delete c key) = true
      /\ OD.contains key (_cache (fst (delete c key))) = false)
  /\ (forall k', k' <> key ->
        OD.getitem k' (_cache (fst (delete c key))) = OD.getitem k' (_cache c))
  /\ snd (delete (fst (delete c key)) key) = false
  /\ (forall now, snd (get (fst (delete c key)) key now) = PyNone).
Proof.
  pose proof (delete_gone c key) as Hgone.
  split; [unfold delete; now intros ->|].
  split.
  { intros Hc. unfold delete. rewrite Hc. simpl. split; [reflexivity|].
    unfold OD.contains. now rewrite getitem_delitem_same. }
  split.
  { intros k' Hne. unfold delete.
    destruct (OD.contains key (_cache c)); simpl; [|reflexivity].
    apply getitem_delitem_other. congruence. }
  split.
  { unfold delete at 1. unfold OD.contains. now rewrite Hgone. }
  intros now. now rewrite get_absent.
Qed.

Lemma delete_removes_only_its_key_witness :
  delete Samples.full_ab "zz" = (Samples.full_ab, false)
  /\ snd (delete Samples.full_ab "a") = true
  /\ OD.getitem "b" (_cache (fst (delete Samples.full_ab "a"))) =
     OD.getitem "b" (_cache Samples.full_ab).
Proof.
  destruct (delete_removes_only_its_key Samples.full_ab "zz") as (Habs & _).
  destruct (delete_removes_only_its_key Samples.full_ab "a")
    as (_ & Hpres & Hother & _).
  split; [apply Habs; reflexivity|].
  split; [apply Hpres; reflexivity|].
  apply Hother. discriminate.
Defined.

(** X4. [delete] removes a stored key even when its entry has already
    expired and has not been swept: the same store on which [get] reports a
    miss makes [delete] report [True]. *)
Theorem delete_reports_expired_entry c key it now :
  OD.getitem key (_cache c) = Some it ->
  _is_expired it now = true ->
  snd (get c key now) = PyNone /\ snd (delete c key) = true.
Proof.
  intros Hit Hx. split.
  - now rewrite (get_expired _ _ _ Hit Hx).
  - unfold delete, OD.contains. now rewrite Hit.
Qed.

Lemma delete_reports_expired_entry_witness :
  snd (get Samples.one_timed "a" 11) = PyNone
  /\ snd (delete Samples.one_timed "a") = true.
Proof.
  apply (@delete_reports_expired_entry Samples.one_timed "a"
           {| value := PyInt 1; expiry := Some (5, 10); created_at := 5 |} 11);
    reflexivity.
Defined.

(** X5. After [clear()] the configuration is kept and nothing is stored:
    [size()] is 0 at any time, every [get] misses and every [delete]
    returns [False]. *)
Theorem clear_empties_the_store c key now :
  max_size (clear c) = max_size c
  /\ default_ttl (clear c) = default_ttl c
  /\ size (clear c) now = (clear c, 0)
  /\ get (clear c) key now = (clear c, PyNone)
  /\ delete (clear c) key = (clear c, false).
Proof. repeat split. Qed.

(** ** When [put] raises *)

(** X6. For an effective TTL that converts to a double, [put] raises exactly
    when the capacity is not positive and the swept store is empty: then
    [popitem] raises KeyError, the value is not stored and the store is left
    swept (empty).  In every other case it returns [True].  (A TTL that
    does not convert makes [put] raise OverflowError before anything else;
    that case is outside this statement.) *)
Theorem put_raises_iff c key v ttl0 t_exp t_sweep t_created :
  converts_to_float (effective_ttl c ttl0) ->
  let r := put c key v ttl0 t_exp t_sweep t_created in
  ((exists e, snd r = Raise e) <->
   max_size c <= 0 /\ _cache (_evict_expired c t_sweep) = [])
  /\ (max_size c <= 0 -> _cache (_evict_expired c t_sweep) = [] ->
      r = (_evict_expired c t_sweep, Raise (KeyError "dictionary is empty"))
      /\ _cache (fst r) = [])
  /\ ((forall e, snd r <> Raise e) -> snd r = Ok true).
Proof.
  intros _ r. unfold r.
  pose proof (put_cases c key v ttl0 t_exp t_sweep t_created) as Hcases.
  cbv zeta in Hcases.
  split; [split|split].
  - intros [e He].
    destruct Hcases
      as [(_ & H)|[(_ & _ & H)|[(_ & _ & p & d' & _ & H)|(Hl & Hs & H)]]];
      rewrite H in He; try discriminate.
    split; [|exact Hs]. unfold len in Hl. rewrite Hs in Hl. simpl in Hl. lia.
  - intros [Hms Hs]. exists (KeyError "dictionary is empty").
    rewrite put_insert_raises; [reflexivity | | exact Hs].
    unfold len. rewrite Hs. simpl. lia.
  - intros Hms Hs. rewrite put_insert_raises; [| | exact Hs].
    + split; [reflexivity | exact Hs].
    + unfold len. rewrite Hs. simpl. lia.
  - intros Hno.
    destruct Hcases
      as [(_ & H)|[(_ & _ & H)|[(_ & _ & p & d' & _ & H)|(_ & _ & H)]]];
      rewrite H in *; try reflexivity.
    exfalso. now apply (Hno (KeyError "dictionary is empty")).
Qed.

Lemma put_raises_iff_witness :
  put (init 0 3600) "k" (PyInt 1) None 0 0 0 =
  (init 0 3600, Raise (KeyError "dictionary is empty"))
  /\ snd (put Samples.full_ab "k" (PyInt 1) None 0 0 0) = Ok true.
Proof.
  assert (Hfit0 : converts_to_float (effective_ttl (init 0 3600) None))
    by reflexivity.
  assert (Hfit : converts_to_float (effective_ttl Samples.full_ab None))
    by reflexivity.
  destruct (@put_raises_iff (init 0 3600) "k" (PyInt 1) None 0 0 0 Hfit0)
    as (_ & Hraise & _).
  destruct (@put_raises_iff Samples.full_ab "k" (PyInt 1) None 0 0 0 Hfit)
    as (_ & _ & Hok).
  split.
  - apply Hraise; [simpl; lia | reflexivity].
  - apply Hok. intros e. vm_compute. discriminate.
Defined.

(** ** What [get] leaves alone *)

(** X7. [get] never sweeps: whatever it does to its own key, every other key
    keeps its entry, expired or not, and the configuration is unchanged. *)
Theorem get_leaves_other_keys c key now k' :
  k' <> key ->
  OD.getitem k' (_cache (fst (get c key now))) = OD.getitem k' (_cache c)
  /\ max_size (fst (get c key now)) = max_size c
  /\ default_ttl (fst (get c key now)) = default_ttl c.
Proof.
  intros Hne. unfold get.
  destruct (OD.getitem key (_cache c)) as [it|] eqn:Hit; [|now repeat split].
  destruct (_is_expired it now).
  - simpl. split; [|now split]. apply getitem_delitem_other. congruence.
  - rewrite (move_to_end_present _ _ Hit). simpl. split; [|now split].
    rewrite getitem_app, getitem_delitem_other by congruence.
    destruct (OD.getitem k' (_cache c)); [reflexivity|].
    simpl. destruct (String.eqb k' key) eqn:E; [|reflexivity].
    apply String.eqb_eq in E. congruence.
Qed.

Lemma get_leaves_other_keys_witness :
  OD.getitem "a" (_cache (fst (get Samples.one_timed "b" 1000))) =
  OD.getitem "a" (_cache Samples.one_timed).
Proof.
  refine (proj1 (@get_leaves_other_keys Samples.one_timed "b" 1000 "a" _)).
  discriminate.
Defined.

(** ** The sweep, and what [put] keeps *)

Lemma getitem_filter_nodup (V : Type) (d : OD.t V) k (f : string * V -> bool) :
  NoDup (OD.keys d) ->
  OD.getitem k (filter f d) =
  match OD.getitem k d with
  | Some x => if f (k, x) then Some x else None
  | None => None
  end.
Proof.
  induction d as [|[k1 v1] d IH]; simpl; [reflexivity|].
  intros Hnd. apply NoDup_cons_iff in Hnd. destruct Hnd as [Hk1 Hnd].
  destruct (String.eqb k k1) eqn:E.
  - apply String.eqb_eq in E. subst k1.
    destruct (f (k, v1)); simpl; [now rewrite String.eqb_refl|].
    apply getitem_filter_none. now apply getitem_none_keys.
  - destruct (f (k1, v1)); simpl; [rewrite E|]; now apply IH.
Qed.

Lemma getitem_snoc_other (V : Type) (d : OD.t V) k k' (x : V) :
  k' <> k -> OD.getitem k' (d ++ [(k, x)]) = OD.getitem k' d.
Proof.
  intros Hne. rewrite getitem_app.
  destruct (OD.getitem k' d); [reflexivity|].
  simpl. destruct (String.eqb k' k) eqn:E; [|reflexivity].
  apply String.eqb_eq in E. congruence.
Qed.

(** looking a key up after the sweep, in a store with unique keys *)
Lemma swept_getitem c now k :
  NoDup (OD.keys (_cache c)) ->
  OD.getitem k (_cache (_evict_expired c now)) =
  match OD.getitem k (_cache c) with
  | Some it => if _is_expired it now then None else Some it
  | None => None
  end.
Proof.
  intros Hnd. rewrite (evict_expired_filter c now Hnd).
  rewrite getitem_filter_nodup by exact Hnd.
  destruct (OD.getitem k (_cache c)) as [it|]; [|reflexivity].
  simpl. now destruct (_is_expired it now).
Qed.

(** X8. On every store reached from a fresh cache, the two loops of
    [_evict_expired] remove exactly the entries that are expired at the
    reading and keep the others in their order; looking a key up afterwards
    finds its entry if and only if that entry is not expired.  Sweeping
    twice at the same reading is sweeping once. *)
Theorem sweep_keeps_exactly_live_entries ms dt ops now :
  let c := run (init ms dt) ops in
  _cache (_evict_expired c now) =
  filter (fun p => negb (_is_expired (snd p) now)) (_cache c)
  /\ (forall k,
        OD.getitem k (_cache (_evict_expired c now)) =
        match OD.getitem k (_cache c) with
        | Some it => if _is_expired it now then None else Some it
        | None => None
        end)
  /\ _evict_expired (_evict_expired c now) now = _evict_expired c now.
Proof.
  intros c.
  pose proof (run_nodup ms dt ops) as Hnd. fold c in Hnd.
  pose proof (evict_expired_filter c now Hnd) as Hf.
  split; [exact Hf|]. split; [|apply evict_expired_idem].
  intros k. now apply swept_getitem.
Qed.



(** * Further properties of the HTTP handlers *)

Lemma get_cache_item_hit cache key now stamp v :
  snd (get cache key now) = v -> v <> PyNone ->
  Api.get_cache_item cache key now stamp =
  (fst (get cache key now),
   {| Api.status := 200;
      Api.body := [("key", PyStr key); ("value", v);
                   ("timestamp", PyStr stamp)] |}).
Proof.
  unfold Api.get_cache_item.
  destruct (get cache key now) as [cache' v']. simpl. intros -> Hne.
  destruct v; try reflexivity. congruence.
Qed.

Lemma step_default_ttl c o : default_ttl (step c o) = default_ttl c.
Proof.
  destruct o; simpl; try reflexivity.
  - destruct (put_cases c key v ttl0 t_exp t_sweep t_created)
      as [(_ & ->)|[(_ & _ & ->)|[(_ & _ & p & d' & _ & ->)|(_ & _ & ->)]]];
      reflexivity.
  - unfold get. destruct (OD.getitem key (_cache c)); [|reflexivity].
    destruct (_is_expired i now); [reflexivity|].
    now destruct (OD.move_to_end key (_cache c)).
  - unfold delete. now destruct (OD.contains key (_cache c)).
Qed.

Lemma run_default_ttl c ops : default_ttl (run c ops) = default_ttl c.
Proof.
  unfold run. revert c.
  induction ops as [|o ops IH]; intros c; simpl; [reflexivity|].
  rewrite IH. apply step_default_ttl.
Qed.

(** X10. PUT then GET over HTTP: a body with a non-null value and an integer
    ttl [t > 0] that converts to a double is answered 201, and a GET of the
    same key while the clock has not passed [t_exp + t] is answered 200 with
    that value.  (A larger ttl passes the validation and makes [cache.put]
    raise OverflowError, which the handler answers with 500.) *)
Theorem http_put_then_get
        cache d v t key t_exp t_sweep t_created now stamp stamp' :
  0 < max_size cache ->
  Api.dict_lookup "value" d = Some v ->
  Api.dict_lookup "ttl" d = Some (PyInt t) ->
  0 < t -> converts_to_float t -> v <> PyNone -> now <= t_exp + t ->
  let r := Api.put_cache_item cache (Api.json_object d) key
                              t_exp t_sweep t_created stamp in
  Api.status (snd r) = 201
  /\ Api.dict_lookup "ttl" (Api.body (snd r)) = Some (PyInt t)
  /\ snd (Api.get_cache_item (fst r) key now stamp') =
     {| Api.status := 200;
        Api.body := [("key", PyStr key); ("value", v);
                     ("timestamp", PyStr stamp')] |}.
Proof.
  intros Hpos Hv Httl Ht _ Hne Hnow r.
  assert (Hr : r = (fst (put cache key v (Some t) t_exp t_sweep t_created),
                    {| Api.status := 201;
                       Api.body := [("message", PyStr "Value stored successfully");
                                    ("key", PyStr key);
                                    ("ttl", Api.py_or (PyInt t)
                                              (PyInt (default_ttl cache)));
                                    ("timestamp", PyStr stamp)] |})).
  { unfold r.
    apply (put_cache_item_accepted cache key t_exp t_sweep t_created stamp
                                   (ttl0 := PyInt t) d Hpos Hv).
    - now rewrite Httl.
    - right. simpl. apply Z.leb_le. lia. }
  rewrite Hr. cbn [fst snd Api.status Api.body].
  split; [reflexivity|].
  split.
  { simpl. unfold Api.py_or. simpl.
    destruct (Z.eqb_spec t 0); [lia | reflexivity]. }
  assert (Hlive : effective_ttl cache (Some t) <= 0
                  \/ now <= t_exp + effective_ttl cache (Some t)).
  { right. exact Hnow. }
  pose proof (put_returns cache key v (Some t) t_exp t_sweep t_created Hpos)
    as Hok.
  pose proof (put_getitem _ _ _ _ _ _ _ Hok) as Hit.
  pose proof (new_item_live v t_exp t_created Hlive) as Hx.
  assert (Hget : snd (get (fst (put cache key v (Some t)
                                    t_exp t_sweep t_created)) key now) = v).
  { now rewrite (get_live _ _ _ Hit Hx). }
  now rewrite (get_cache_item_hit _ _ _ stamp' Hget Hne).
Qed.

Lemma http_put_then_get_witness :
  Api.status
    (snd (Api.get_cache_item
            (fst (Api.put_cache_item Api.cache0
                    (Samples.body_with_ttl (PyInt 300)) "k" 100 100 100 "t0"))
            "k" 400 "t1")) = 200.
Proof.
  assert (Hpos : 0 < max_size Api.cache0) by reflexivity.
  assert (Ht : 0 < 300) by lia.
  assert (Hfit : converts_to_float 300) by reflexivity.
  assert (Hne : PyStr "x" <> PyNone) by discriminate.
  assert (Hnow : 400 <= 100 + 300) by lia.
  destruct (@http_put_then_get Api.cache0
              [("value", PyStr "x"); ("ttl", PyInt 300)] (PyStr "x") 300
              "k" 100 100 100 400 "t0" "t1" Hpos eq_refl eq_refl Ht Hfit
              Hne Hnow)
    as (_ & _ & Hget).
  unfold Samples.body_with_ttl. now rewrite Hget.
Defined.

(** X11. DELETE answers 200 exactly when the key is stored, whether or not
    its entry has expired, and 404 otherwise, leaving the store alone; after
    it a GET of the key is answered 404 and a second DELETE is answered 404. *)
Theorem delete_cache_item_answers cache key now stamp stamp' :
  (OD.contains key (_cache cache) = true ->
   snd (Api.delete_cache_item cache key stamp) =
   {| Api.status := 200;
      Api.body := [("message", PyStr "Key deleted successfully");
                   ("key", PyStr key); ("timestamp", PyStr stamp)] |})
  /\ (OD.contains key (_cache cache) = false ->
      Api.delete_cache_item cache key stamp =
      (cache, {| Api.status := 404;
                 Api.body := [("error", PyStr "Key not found");
                              ("key", PyStr key)] |}))
  /\ Api.status (snd (Api.get_cache_item
                        (fst (Api.delete_cache_item cache key stamp))
                        key now stamp')) = 404
  /\ Api.status (snd (Api.delete_cache_item
                        (fst (Api.delete_cache_item cache key stamp))
                        key stamp')) = 404.
Proof.
  pose proof (delete_gone cache key) as Hgone.
  assert (Hfst : fst (Api.delete_cache_item cache key stamp)
                 = fst (delete cache key)).
  { unfold Api.delete_cache_item. destruct (delete cache key) as [c' b].
    now destruct b. }
  split.
  { intros Hc. pose proof (delete_result cache key) as Hb. rewrite Hc in Hb.
    unfold Api.delete_cache_item. destruct (delete cache key) as [c' b].
    simpl in Hb. now subst b. }
  split.
  { intros Hc. unfold Api.delete_cache_item, delete. now rewrite Hc. }
  rewrite Hfst. split.
  - rewrite get_cache_item_none; [reflexivity | now rewrite get_absent].
  - pose proof (delete_result (fst (delete cache key)) key) as Hb.
    unfold OD.contains in Hb. rewrite Hgone in Hb.
    unfold Api.delete_cache_item at 1.
    destruct (delete (fst (delete cache key)) key) as [c' b].
    simpl in Hb. now subst b.
Qed.

Lemma delete_cache_item_answers_witness :
  Api.status (snd (Api.delete_cache_item Samples.one_timed "a" "t0")) = 200
  /\ Api.status (snd (Api.delete_cache_item Samples.one_timed "b" "t0")) = 404.
Proof.
  destruct (delete_cache_item_answers Samples.one_timed "a" 0 "t0" "t1")
    as (Hpres & _).
  destruct (delete_cache_item_answers Samples.one_timed "b" 0 "t0" "t1")
    as (_ & Habs & _).
  split.
  - now rewrite Hpres.
  - now rewrite Habs.
Defined.

(** X12. On every store reached from a cache constructed with a positive
    [max_size], GET /cache/stats is answered 200 with the number of entries
    not expired at the reading, which lies between 0 and [max_size], and
    with the two construction parameters. *)
Theorem get_cache_stats_answers ms dt ops now stamp :
  0 < ms ->
  let c := run (init ms dt) ops in
  let n := Z.of_nat (List.length
                       (filter (fun p => negb (_is_expired (snd p) now))
                               (_cache c))) in
  snd (Api.get_cache_stats c now stamp) =
  {| Api.status := 200;
     Api.body := [("size", PyInt n); ("max_size", PyInt ms);
                  ("default_ttl", PyInt dt); ("timestamp", PyStr stamp)] |}
  /\ 0 <= n <= ms.
Proof.
  intros Hpos c n.
  assert (Hcount : len (_evict_expired c now) = n).
  { unfold len, n. rewrite evict_expired_filter; [reflexivity|].
    apply run_nodup. }
  split.
  - unfold Api.get_cache_stats, stats. store_simpl.
    cbn [stats_size stats_max_size stats_default_ttl].
    rewrite Hcount, evict_expired_max_size, evict_expired_default_ttl.
    unfold c. rewrite run_max_size, run_default_ttl.
    reflexivity.
  - split; [unfold n; lia|]. rewrite <- Hcount.
    pose proof (evict_expired_len c now) as Hle.
    assert (Hb : len c <= max_size (init ms dt)).
    { apply run_len_bound; simpl; [exact Hpos | unfold len; simpl; lia]. }
    simpl in Hb. lia.
Qed.

Lemma get_cache_stats_answers_witness :
  Api.dict_lookup "size"
    (Api.body (snd (Api.get_cache_stats
                      (run (init 2 3600)
                           [OpPut "a" (PyInt 1) (Some 5) 0 0 0;
                            OpPut "b" (PyInt 2) (Some 0) 1 1 1])
                      100 "t0"))) = Some (PyInt 1).
Proof.
  assert (Hpos : 0 < 2) by lia.
  destruct (@get_cache_stats_answers 2 3600
              [OpPut "a" (PyInt 1) (Some 5) 0 0 0;
               OpPut "b" (PyInt 2) (Some 0) 1 1 1] 100 "t0" Hpos) as [Hr _].
  now rewrite Hr.
Defined.

(** X13. DELETE /cache is answered 200 and empties the store: a following
    GET /cache/stats reports size 0 with the configuration unchanged, and a
    GET of any key is answered 404. *)
Theorem clear_cache_empties cache key now stamp stamp' :
  Api.status (snd (Api.clear_cache cache stamp)) = 200
  /\ snd (Api.get_cache_stats (fst (Api.clear_cache cache stamp)) now stamp') =
     {| Api.status := 200;
        Api.body := [("size", PyInt 0); ("max_size", PyInt (max_size cache));
                     ("default_ttl", PyInt (default_ttl cache));
                     ("timestamp", PyStr stamp')] |}
  /\ Api.status (snd (Api.get_cache_item (fst (Api.clear_cache cache stamp))
                                         key now stamp')) = 404.
Proof. repeat split. Qed.

(** X14. PUT is all or nothing: on a cache with a positive capacity the
    answer is 201, 400 or 500, and every answer other than 201 leaves the
    store exactly as it was, whatever the request. *)
Theorem put_cache_item_all_or_nothing
        cache req key t_exp t_sweep t_created stamp :
  0 < max_size cache ->
  let r := Api.put_cache_item cache req key t_exp t_sweep t_created stamp in
  (Api.status (snd r) = 201 \/ Api.status (snd r) = 400
   \/ Api.status (snd r) = 500)
  /\ (Api.status (snd r) <> 201 -> fst r = cache)
  /\ (Api.status (snd r) = 201 ->
      exists v ttl0,
        fst r = fst (put cache key v ttl0 t_exp t_sweep t_created)).
Proof.
  intros Hpos r. unfold r, Api.put_cache_item.
  destruct (Api.is_json req); simpl;
    [|split; [tauto | split; [reflexivity | discriminate]]].
  destruct (Api.get_json req) as [data|e];
    [|simpl; split; [tauto | split; [reflexivity | discriminate]]].
  destruct (Api.py_in "value" data) as [[|]|e];
    try (simpl; split; [tauto | split; [reflexivity | discriminate]]).
  destruct (Api.py_getitem "value" data) as [v|e];
    [|simpl; split; [tauto | split; [reflexivity | discriminate]]].
  destruct (Api.py_get "ttl" data) as [ttl0|e];
    [|simpl; split; [tauto | split; [reflexivity | discriminate]]].
  match goal with
  | |- context [if ?b then _ else _] => destruct b
  end; [simpl; split; [tauto | split; [reflexivity | discriminate]]|].
  pose proof (put_returns cache key v (Api.ttl_arg ttl0)
                          t_exp t_sweep t_created Hpos) as Hret.
  destruct (put cache key v (Api.ttl_arg ttl0) t_exp t_sweep t_created)
    as [cache' res'] eqn:Hput.
  simpl in Hret. subst res'. simpl.
  split; [tauto|]. split; [congruence|].
  intros _. exists v, (Api.ttl_arg ttl0). now rewrite Hput.
Qed.

Lemma put_cache_item_all_or_nothing_witness :
  fst (Api.put_cache_item Samples.full_ab
         {| Api.is_json := true; Api.get_json := Ok PyNone |}
         "a" 0 0 0 "t0") = Samples.full_ab.
Proof.
  assert (Hpos : 0 < max_size Samples.full_ab) by reflexivity.
  refine (proj1 (proj2 (@put_cache_item_all_or_nothing Samples.full_ab
                          {| Api.is_json := true; Api.get_json := Ok PyNone |}
                          "a" 0 0 0 "t0" Hpos)) _).
  vm_compute. discriminate.
Defined.

(** X15. A JSON boolean passes the TTL check, because a Python [bool] is an
    [int]: [{"ttl": true}] is stored with a TTL of one second and echoed as
    [true]; [{"ttl": false}] is stored without expiry and the answer shows
    the default TTL. *)
Theorem put_cache_item_accepts_boolean_ttl
        cache d v b key t_exp t_sweep t_created stamp :
  0 < max_size cache ->
  Api.dict_lookup "value" d = Some v ->
  Api.dict_lookup "ttl" d = Some (PyBool b) ->
  let r := Api.put_cache_item cache (Api.json_object d) key
                              t_exp t_sweep t_created stamp in
  Api.status (snd r) = 201
  /\ Api.dict_lookup "ttl" (Api.body (snd r)) =
     Some (if b then PyBool true else PyInt (default_ttl cache))
  /\ OD.getitem key (_cache (fst r)) =
     Some {| value := v;
             expiry := if b then Some (1, t_exp + 1) else None;
             created_at := t_created |}.
Proof.
  intros Hpos Hv Httl r.
  pose proof (put_cache_item_with_value cache key t_exp t_sweep t_created
                                        stamp d Hv) as Hr.
  cbv zeta in Hr. rewrite Httl in Hr.
  assert (Htest : negb (Api.isinstance_int (PyBool b))
                  || (Api.int_of (PyBool b) <? 0) = false)
    by now destruct b.
  rewrite Htest in Hr. cbn [Api.ttl_arg Api.int_of] in Hr.
  pose proof (put_returns cache key v (Some (Z.b2z b))
                          t_exp t_sweep t_created Hpos) as Hret.
  pose proof (put_getitem cache key v (Some (Z.b2z b))
                          t_exp t_sweep t_created Hret) as Hit.
  pose proof (step_default_ttl cache
                (OpPut key v (Some (Z.b2z b)) t_exp t_sweep t_created))
    as Hdt.
  cbn [step] in Hdt.
  destruct (put cache key v (Some (Z.b2z b)) t_exp t_sweep t_created)
    as [cache' res'] eqn:Hput.
  cbn [fst snd] in Hret, Hit, Hdt. subst res'. unfold r. rewrite Hr.
  cbn [fst snd Api.status Api.body].
  split; [reflexivity|]. split.
  - simpl. rewrite Hdt. now destruct b.
  - rewrite Hit. now destruct b.
Qed.

Lemma put_cache_item_accepts_boolean_ttl_witness :
  Api.status (snd (Api.put_cache_item Api.cache0
                     (Samples.body_with_ttl (PyBool true))
                     "k" 100 100 100 "t0")) = 201.
Proof.
  assert (Hpos : 0 < max_size Api.cache0) by reflexivity.
  exact (proj1 (@put_cache_item_accepts_boolean_ttl Api.cache0
                  [("value", PyStr "x"); ("ttl", PyBool true)] (PyStr "x") true
                  "k" 100 100 100 "t0" Hpos eq_refl eq_refl)).
Defined.

(** X16. A body that is JSON but not an object never reaches [cache.put]:
    null, a boolean and a number make the membership test raise and are
    answered 500; a list is answered 400 unless it has the element
    ["value"], a string is answered 400 unless it contains ["value"], and
    then the subscript raises and the answer is 500.  When [get_json()]
    itself raises, the answer is 500 with the exception's text. *)
Theorem put_cache_item_non_object_body
        cache req key t_exp t_sweep t_created stamp :
  Api.is_json req = true ->
  let r := Api.put_cache_item cache req key t_exp t_sweep t_created stamp in
  (forall e, Api.get_json req = Raise e -> r = (cache, Api.internal_error e))
  /\ (forall data,
        Api.get_json req = Ok data ->
        (forall d, data <> PyDict d) ->
        fst r = cache
        /\ Api.status (snd r) =
           match data with
           | PyList l =>
               if existsb (fun x => match x with
                                    | PyStr s => String.eqb "value" s
                                    | _ => false
                                    end) l
               then 500 else 400
           | PyStr s =>
               match String.index 0 "value" s with
               | Some _ => 500
               | None => 400
               end
           | _ => 500
           end).
Proof.
  intros Hj r. unfold r, Api.put_cache_item. rewrite Hj. simpl.
  split; [now intros e ->|].
  intros data -> Hnd.
  destruct data as [|b|z|m e|s|l|d]; simpl; try (split; reflexivity).
  - destruct (String.index 0 "value" s); split; reflexivity.
  - destruct (existsb _ l); split; reflexivity.
  - exfalso. now apply (Hnd d).
Qed.

Lemma put_cache_item_non_object_body_witness :
  Api.status (snd (Api.put_cache_item Samples.full_ab
                     {| Api.is_json := true; Api.get_json := Ok (PyInt 5) |}
                     "a" 0 0 0 "t0")) = 500
  /\ Api.status (snd (Api.put_cache_item Samples.full_ab
                        {| Api.is_json := true;
                           Api.get_json := Ok (PyList [PyInt 1; PyInt 2]) |}
                        "a" 0 0 0 "t0")) = 400
  /\ Api.status (snd (Api.put_cache_item Samples.full_ab
                        {| Api.is_json := true;
                           Api.get_json := Raise (BadRequest "400 Bad Request") |}
                        "a" 0 0 0 "t0")) = 500.
Proof.
  split; [|split].
  - refine (proj2 (proj2 (@put_cache_item_non_object_body Samples.full_ab
                            {| Api.is_json := true; Api.get_json := Ok (PyInt 5) |}
                            "a" 0 0 0 "t0" eq_refl)
                         (PyInt 5) eq_refl _)).
    discriminate.
  - refine (proj2 (proj2 (@put_cache_item_non_object_body Samples.full_ab
                            {| Api.is_json := true;
                               Api.get_json := Ok (PyList [PyInt 1; PyInt 2]) |}
                            "a" 0 0 0 "t0" eq_refl)
                         (PyList [PyInt 1; PyInt 2]) eq_refl _)).
    discriminate.
  - rewrite (proj1 (@put_cache_item_non_object_body Samples.full_ab
                      {| Api.is_json := true;
                         Api.get_json := Raise (BadRequest "400 Bad Request") |}
                      "a" 0 0 0 "t0" eq_refl)
                   (BadRequest "400 Bad Request") eq_refl).
    reflexivity.
Defined.

(** * Properties of the round-robin forwarder *)

Module LoadBalancerFacts.
Import LoadBalancer.

Lemma pick_in_range current :
  0 <= current < 3 ->
  exists b,
    nth_error BACKENDS (Z.to_nat current) = Some b
    /\ pick current = (Some b, (current + 1) mod 3)
    /\ 0 <= (current + 1) mod 3 < 3.
Proof.
  intros H.
  assert (Hc : current = 0 \/ current = 1 \/ current = 2) by lia.
  destruct Hc as [-> | [-> | ->]]; eexists; repeat split; try reflexivity;
    try discriminate.
Qed.

Lemma do_GET_in_range current path network :
  0 <= current < 3 ->
  exists b,
    nth_error BACKENDS (Z.to_nat current) = Some b
    /\ do_GET current path network =
       ((current + 1) mod 3,
        Some ((b ++ path)%string, forward b path network)).
Proof.
  intros H. destruct (pick_in_range H) as (b & Hb & Hp & _).
  exists b. split; [exact Hb|]. unfold do_GET. now rewrite Hp.
Qed.

(** X17. Round robin.  Starting from an index in range (the module starts
    at 0), after any sequence of GET requests the index is the start plus
    the number of requests, modulo 3; request number [n] is forwarded to
    backend number [(start + n) mod 3] with its own path appended, and no
    lookup in [BACKENDS] ever fails. *)
Theorem round_robin current reqs :
  0 <= current < 3 ->
  fst (serve current reqs) = (current + Z.of_nat (List.length reqs)) mod 3
  /\ List.length (snd (serve current reqs)) = List.length reqs
  /\ (forall n path network,
        nth_error reqs n = Some (path, network) ->
        exists b,
          nth_error BACKENDS (Z.to_nat ((current + Z.of_nat n) mod 3)) = Some b
          /\ nth_error (snd (serve current reqs)) n =
             Some (Some ((b ++ path)%string, forward b path network))).
Proof.
  revert current.
  induction reqs as [|[path0 network0] reqs IH]; intros current Hr.
  - simpl. split; [|split; [reflexivity|]].
    + rewrite Z.add_0_r, Z.mod_small; lia.
    + intros [|n] path network H; discriminate.
  - destruct (do_GET_in_range path0 network0 Hr) as (b0 & Hb0 & Hget).
    destruct (pick_in_range Hr) as (_ & _ & _ & Hr').
    destruct (IH _ Hr') as (Hfst & Hlen & Hnth).
    cbn [serve]. rewrite Hget.
    destruct (serve ((current + 1) mod 3) reqs) as [final outs] eqn:Hs.
    cbn [fst snd] in *.
    split; [|split].
    + rewrite Hfst. cbn [List.length]. rewrite Z.add_mod_idemp_l by lia.
      f_equal. lia.
    + cbn [List.length]. now rewrite Hlen.
    + intros [|n] path network H.
      * injection H as -> ->. exists b0. simpl.
        rewrite Z.add_0_r, Z.mod_small by lia. now split.
      * simpl in H. destruct (Hnth n path network H) as (b & Hb & Hout).
        exists b. split; [|exact Hout].
        rewrite <- Hb. f_equal. f_equal.
        rewrite Z.add_mod_idemp_l by lia. f_equal. lia.
Qed.

Lemma round_robin_witness :
  let up := fun _ : string => RequestException "down" in
  fst (serve 0 [("/a", up); ("/b", up); ("/c", up); ("/d", up)]) = 1
  /\ exists s,
       nth_error (snd (serve 0 [("/a", up); ("/b", up); ("/c", up); ("/d", up)]))
                 3 = Some (Some ("http://localhost:8001/d", s)).
Proof.
  intros up.
  assert (Hr : 0 <= 0 < 3) by lia.
  destruct (@round_robin 0 [("/a", up); ("/b", up); ("/c", up); ("/d", up)] Hr)
    as (Hfst & _ & Hnth).
  split; [rewrite Hfst; reflexivity|].
  destruct (Hnth 3%nat "/d" up eq_refl) as (b & Hb & Hout).
  vm_compute in Hb. injection Hb as <-.
  eexists. exact Hout.
Defined.

(** X18. Fairness.  From an index in range, three consecutive picks take
    each backend once, in list order starting at the index, and bring the
    index back to where it was. *)
Theorem three_picks_visit_every_backend current :
  0 <= current < 3 ->
  let p1 := pick current in
  let p2 := pick (snd p1) in
  let p3 := pick (snd p2) in
  snd p3 = current
  /\ [fst p1; fst p2; fst p3] =
     map Some (skipn (Z.to_nat current) BACKENDS
               ++ firstn (Z.to_nat current) BACKENDS).
Proof.
  intros H.
  assert (Hc : current = 0 \/ current = 1 \/ current = 2) by lia.
  destruct Hc as [-> | [-> | ->]]; split; reflexivity.
Qed.

Lemma three_picks_visit_every_backend_witness :
  [fst (pick 1); fst (pick (snd (pick 1)));
   fst (pick (snd (pick (snd (pick 1)))))] =
  [Some "http://localhost:8002"; Some "http://localhost:8003";
   Some "http://localhost:8001"].
Proof.
  assert (Hr : 0 <= 1 < 3) by lia.
  exact (proj2 (@three_picks_visit_every_backend 1 Hr)).
Defined.



(** X20. A backend response is passed through: status and body are the
    backend's, and the headers sent are exactly the backend's headers, in
    their order and with their repetitions, without those named
    content-encoding in any letter case: dropping a header neither moves
    nor removes the ones before and after it.  A response without such a
    header is forwarded with all its headers. *)
Theorem forward_passes_response_through backend path network r :
  network (backend ++ path)%string = Responded r ->
  let s := forward backend path network in
  sent_status s = status_code r
  /\ sent_body s = content r
  /\ sent_headers s =
     filter (fun h => negb (String.eqb (lower (fst h)) "content-encoding"))
            (headers r)
  /\ (forall before h after,
        headers r = before ++ h :: after ->
        exists before' after',
          sent_headers s =
          before'
          ++ (if String.eqb (lower (fst h)) "content-encoding"
              then [] else [h])
          ++ after'
          /\ (forall x, In x before' <->
                        In x before /\ lower (fst x) <> "content-encoding")
          /\ (forall x, In x after' <->
                        In x after /\ lower (fst x) <> "content-encoding"))
  /\ (forall h, In h (sent_headers s) <->
                In h (headers r) /\ lower (fst h) <> "content-encoding")
  /\ (List.length (sent_headers s) <= List.length (headers r))%nat
  /\ ((forall h, In h (headers r) -> lower (fst h) <> "content-encoding") ->
      sent_headers s = headers r).
Proof.
  intros Hn s. unfold s, forward. rewrite Hn. cbn [sent_status sent_body sent_headers].
  split; [reflexivity|]. split; [reflexivity|].
  assert (Hmem : forall (l : list (string * string)) h,
             In h (filter (fun h => negb (String.eqb (lower (fst h))
                                                     "content-encoding")) l)
             <-> In h l /\ lower (fst h) <> "content-encoding").
  { intros l h. rewrite filter_In, negb_true_iff.
    split; intros [Hin Hh]; (split; [exact Hin|]).
    - intros E. rewrite E in Hh. now rewrite String.eqb_refl in Hh.
    - now apply String.eqb_neq. }
  split; [reflexivity|].
  split.
  { intros before h after ->.
    exists (filter (fun h => negb (String.eqb (lower (fst h))
                                              "content-encoding")) before),
           (filter (fun h => negb (String.eqb (lower (fst h))
                                              "content-encoding")) after).
    split; [|split; intros x; apply Hmem].
    rewrite filter_app. simpl.
    now destruct (String.eqb (lower (fst h)) "content-encoding"). }
  split; [apply Hmem|].
  split; [apply filter_length_le|].
  intros Hall.
  induction (headers r) as [|h hs IH]; simpl; [reflexivity|].
  assert (Hh : String.eqb (lower (fst h)) "content-encoding" = false).
  { apply String.eqb_neq, Hall. now left. }
  rewrite Hh. simpl. f_equal. apply IH. intros h' Hin. apply Hall. now right.
Qed.

Lemma forward_passes_response_through_witness :
  let network := fun _ : string =>
    Responded {| status_code := 200;
                 headers := [("Content-Type", "text/plain");
                             ("Content-Encoding", "gzip");
                             ("X-Id", "7")];
                 content := "hello" |} in
  sent_status (forward "http://localhost:8001" "/x" network) = 200
  /\ In ("X-Id", "7")
        (sent_headers (forward "http://localhost:8001" "/x" network))
  /\ sent_headers (forward "http://localhost:8001" "/x" network)
     = [("Content-Type", "text/plain"); ("X-Id", "7")].
Proof.
  intros network.
  destruct (@forward_passes_response_through
              "http://localhost:8001" "/x" network _ eq_refl)
    as (Hstatus & _ & _ & _ & Hin & _).
  split; [exact Hstatus|].
  split; [|reflexivity].
  apply Hin. split.
  - right. right. left. reflexivity.
  - discriminate.
Defined.

End LoadBalancerFacts.

(** * Reading does not extend a lifetime *)

Lemma delitem_snoc_same (V : Type) (d : OD.t V) k (x : V) :
  OD.delitem k (OD.delitem k d ++ [(k, x)]) = OD.delitem k d.
Proof.
  unfold OD.delitem. rewrite filter_app. simpl.
  rewrite String.eqb_refl. simpl. rewrite app_nil_r.
  induction d as [|p d IH]; simpl; [reflexivity|].
  destruct (negb (String.eqb k (fst p))) eqn:E; simpl.
  - rewrite E. now rewrite IH.
  - exact IH.
Qed.

(** X21. The TTL is absolute, not sliding: a successful [get] moves the
    entry to the end but leaves its [expires_at] as [put] wrote it, so a
    [get] after [expires_at] misses however recently the entry was read. *)
Theorem get_does_not_extend_lifetime c key it e now1 now2 :
  OD.getitem key (_cache c) = Some it ->
  expires_at it = Some e ->
  now1 <= e -> e < now2 ->
  snd (get c key now1) = value it
  /\ OD.getitem key (_cache (fst (get c key now1))) = Some it
  /\ get (fst (get c key now1)) key now2 =
     (with_cache c (OD.delitem key (_cache c)), PyNone).
Proof.
  intros Hit He H1 H2.
  assert (Hx1 : _is_expired it now1 = false).
  { apply is_expired_false. right. now exists e. }
  assert (Hx2 : _is_expired it now2 = true).
  { apply is_expired_true. unfold expires_at in He.
    destruct (expiry it) as [[t e']|]; [|discriminate].
    injection He as ->. now exists t, e. }
  rewrite (get_live _ _ _ Hit Hx1). store_simpl.
  assert (Hit' : OD.getitem key (OD.delitem key (_cache c) ++ [(key, it)])
                 = Some it) by apply getitem_last, getitem_delitem_same.
  split; [reflexivity|]. split; [exact Hit'|].
  rewrite get_expired with (it := it); [|exact Hit'|exact Hx2].
  store_simpl. now rewrite delitem_snoc_same.
Qed.

Lemma get_does_not_extend_lifetime_witness :
  snd (get Samples.one_timed "a" 10) = PyInt 1
  /\ snd (get (fst (get Samples.one_timed "a" 10)) "a" 11) = PyNone.
Proof.
  assert (H1 : 10 <= 10) by lia.
  assert (H2 : 10 < 11) by lia.
  destruct (@get_does_not_extend_lifetime Samples.one_timed "a"
              {| value := PyInt 1; expiry := Some (5, 10); created_at := 5 |}
              10 10 11 eq_refl eq_refl H1 H2) as (Hv & _ & Hmiss).
  split; [exact Hv | now rewrite Hmiss].
Defined.
